(** * hello-http: the echo server's request pipeline, embedded and verified

    The development follows the TypeScript sources:
    - [echo.ts]    ([readBody], [parseCookies], [rebuildHeaders], [echoHandler]),
    - [app.ts]     ([createApp]: the CORS, access-log and Prometheus middleware
                    in front of the echo handler),
    - [metrics.ts] ([metricsEndpoint], [metricsMiddleware]).

    Conventions of the embedding.
    - A JavaScript string is a [string]; its characters are code units.  Node
      decodes header bytes as latin1, so every header string has code units
      below 256, which is what [ascii] holds.
    - A JavaScript number is a [Z], and [option Z] where [NaN] can occur
      ([None] is [NaN]); every comparison with [NaN] is false.
    - A plain object used as a dictionary is a [gmap string _]; property
      assignment is [setProp].
    - Koa's [ctx] is split into the request side, which the middleware only
      read ([Request]), and the response side, which they assign ([Response]).
      The response records the values assigned to [ctx.status], [ctx.body],
      [ctx.type] and through [ctx.set]; what Koa later writes on the socket
      is outside the repository.
    - Everything a request can change (response, log output, the metrics
      histogram) is threaded through a [World]; a middleware is a function
      of the request, its continuation [next], and the world.
    - A call that can throw has a [completion]; an [async] function that
      can reject has an [Outcome], which keeps the world as it is when the
      exception leaves the function.  What Koa answers to a request whose
      middleware stack rejects is outside the repository. *)

From Stdlib Require Import ZArith Ascii String Strings.Byte.
From stdpp Require Import gmap strings list pretty.

Local Open Scope string_scope.
Local Open Scope Z_scope.

(** ** JavaScript string and number primitives used by the sources *)

Module JS.

(** [s || d] on strings: the empty string is falsy. *)
Definition truthy (s : string) : bool :=
  match s with EmptyString => false | String _ _ => true end.

Definition or_else (s d : string) : string := if truthy s then s else d.

(** [o || d] where [o] may be [undefined]. *)
Definition or_default (o : option string) (d : string) : string :=
  match o with Some s => or_else s d | None => d end.

(** WhiteSpace and LineTerminator code units below 256: TAB, LF, VT, FF,
    CR, SP and NBSP. *)
Definition isWhiteSpace (c : ascii) : bool :=
  let n := N_of_ascii c in
  ((9 <=? n) && (n <=? 13) || (n =? 32) || (n =? 160))%N.

Fixpoint trimStart (s : string) : string :=
  match s with
  | EmptyString => EmptyString
  | String c s' => if isWhiteSpace c then trimStart s' else s
  end.

Definition trimEnd (s : string) : string :=
  String.rev (trimStart (String.rev s)).

(** [s.trim()] *)
Definition trim (s : string) : string := trimEnd (trimStart s).

(** [s.split(sep)] for a one-character separator: never the empty list,
    [split sep ""] is [[""]]. *)
Fixpoint split (sep : ascii) (s : string) : list string :=
  match s with
  | EmptyString => [EmptyString]
  | String c s' =>
      if Ascii.eqb c sep then EmptyString :: split sep s'
      else match split sep s' with
           | h :: t => String c h :: t
           | [] => [String c EmptyString]
           end
  end.

(** [s.indexOf(c)] for a one-character needle: [-1] when absent. *)
Fixpoint indexOf (c : ascii) (s : string) : Z :=
  match s with
  | EmptyString => -1
  | String d s' =>
      if Ascii.eqb d c then 0
      else let i := indexOf c s' in if i <? 0 then -1 else i + 1
  end.

Definition len (s : string) : Z := Z.of_nat (String.length s).

(** Relative index of [slice]: negative counts from the end, both clamped. *)
Definition clampIndex (n i : Z) : Z :=
  if i <? 0 then Z.max (n + i) 0 else Z.min i n.

(** [s.slice(from, to)] *)
Definition slice (s : string) (from to : Z) : string :=
  let a := clampIndex (len s) from in
  let b := clampIndex (len s) to in
  substring (Z.to_nat a) (Z.to_nat (b - a)) s.

(** [s.slice(from)] *)
Definition sliceFrom (s : string) (from : Z) : string :=
  slice s from (len s).

(** [toLowerCase] on code units below 256: A-Z, and the latin1 capitals
    0xC0-0xDE without the multiplication sign 0xD7. *)
Definition lowerChar (c : ascii) : ascii :=
  let n := N_of_ascii c in
  if ((65 <=? n) && (n <=? 90)
      || (192 <=? n) && (n <=? 222) && negb (n =? 215))%N
  then ascii_of_N (n + 32) else c.

Fixpoint toLowerCase (s : string) : string :=
  match s with
  | EmptyString => EmptyString
  | String c s' => String (lowerChar c) (toLowerCase s')
  end.

Definition digit (c : ascii) : option Z :=
  let n := N_of_ascii c in
  if ((48 <=? n) && (n <=? 57))%N then Some (Z.of_N n - 48) else None.

(** The value of the longest prefix of decimal digits; [acc] is [None]
    until a digit has been read. *)
Fixpoint parseDigits (acc : option Z) (s : string) : option Z :=
  match s with
  | EmptyString => acc
  | String c s' =>
      match digit c with
      | Some d => parseDigits (Some (10 * default 0 acc + d)) s'
      | None => acc
      end
  end.

(** [parseInt(s, 10)]: leading white space, an optional sign, then the
    longest run of digits; [NaN] when there is no digit. *)
Definition parseInt (s : string) : option Z :=
  match trimStart s with
  | String "-" r => Z.opp <$> parseDigits None r
  | String "+" r => parseDigits None r
  | r => parseDigits None r
  end.

(** [String(n)] and [`${n}`] for an integer. *)
Definition numberToString (n : Z) : string := pretty n.

(** [obj[k] = v] on an object created by [{}].  On such an object the key
    [__proto__] names the prototype accessor, whose setter ignores every
    value that is not an object: no property is created. *)
Definition setProp {V} (k : string) (v : V) (obj : gmap string V)
  : gmap string V :=
  if decide (k = "__proto__") then obj else <[k:=v]> obj.

End JS.

(** ** What the sources import from Node, Koa and npm packages

    These are not code of the repository: they are taken as given. *)

(** A readable stream, seen by a listener: the chunks of its [data] events
    and then the one event that closes it. *)
Inductive ending :=
  | End
  | Error (message : string).

Record stream := {
  stream_data : list (list byte);
  stream_ending : ending;
}.

(** One observation of the duration histogram: its labels (the duration is
    wall-clock time). *)
Record Observation := { obs_labels : gmap string string }.

(** How a call completes: it returns a value, or it throws an [Error] with
    a message. *)
Inductive completion (A : Type) :=
  | Returned (value : A)
  | Thrown (message : string).
Arguments Returned {A} value.
Arguments Thrown {A} message.

Class Platform := {
  (** the values [JSON.parse] produces; [None] when it throws *)
  json : Type;
  JSON_parse : string → option json;
  (** [decode(token, { complete: true })] of jsonwebtoken: it returns
      [null] ([None]) or the decoded token, or it throws (it parses the
      payload of a token whose header says [typ: "JWT"] with an unguarded
      [JSON.parse]) *)
  jwt : Type;
  decode : string → completion (option jwt);
  (** what [getPeerCertificate()] returns when a certificate was presented *)
  certificate : Type;
  (** [req.pipe(createGunzip())] *)
  gunzip : stream → stream;
  (** [buffer.toString("utf8")] *)
  utf8 : list byte → string;
  (** [hostname()] of node:os *)
  hostname : string;
  (** [new RegExp(source).test(s)] *)
  regexp_test : string → string → bool;
  (** [register.contentType] and [register.metrics()] of prom-client, the
      latter as a function of what the histogram holds *)
  register_contentType : string;
  register_metrics : list Observation → string;
}.

(** ** The request side of Koa's context *)

(** A query value: [string | string[]]. *)
Inductive qvalue :=
  | QString (s : string)
  | QArray (l : list string).

#[global] Instance qvalue_eq_dec : EqDecision qvalue.
Proof. solve_decision. Defined.

(** [ctx.req.socket]: plain, or TLS with its SNI name and the certificate
    the peer presented ([None] when [getPeerCertificate()] is empty). *)
Inductive socket `{Platform} :=
  | PlainSocket
  | TLSSocket (servername : option string) (peer : option certificate).

Record Request `{Platform} := {
  req_path : string;
  req_method : string;
  req_url : string;
  (** [ctx.headers]: names in lower case, as Node parsed them *)
  req_headers : gmap string string;
  (** [ctx.req.rawHeaders]: name, value, name, value, ... *)
  req_rawHeaders : list string;
  req_query : gmap string qvalue;
  (** [ctx.is(type)] is truthy *)
  req_is : string → bool;
  req_fresh : bool;
  req_hostname : string;
  req_ip : string;
  req_ips : list string;
  req_protocol : string;
  req_subdomains : list string;
  req_socket : socket;
  (** [ctx.req], read as a stream *)
  req_stream : stream;
}.

(** [ctx.get(field)]: the header, looked up without regard to case, or the
    empty string; [referer] and [referrer] name one header. *)
Definition get `{Platform} (ctx : Request) (field : string) : string :=
  let f := JS.toLowerCase field in
  if decide (f = "referer" ∨ f = "referrer")
  then JS.or_default (req_headers ctx !! "referrer")
         (JS.or_default (req_headers ctx !! "referer") "")
  else JS.or_default (req_headers ctx !! f) "".

(** [String(v)] of a query value: an array is joined by commas. *)
Fixpoint join (l : list string) : string :=
  match l with
  | [] => ""
  | [s] => s
  | s :: l' => s +:+ "," +:+ join l'
  end.

Definition qToString (v : qvalue) : string :=
  match v with QString s => s | QArray l => join l end.

Definition qTruthy (v : qvalue) : bool :=
  match v with QString s => JS.truthy s | QArray _ => true end.

(** [ctx.get(name) || ctx.query[name]]: [None] when the result is falsy. *)
Definition headerOrQuery `{Platform} (ctx : Request) (name : string)
  : option qvalue :=
  if JS.truthy (get ctx name) then Some (QString (get ctx name))
  else match req_query ctx !! name with
       | Some v => if qTruthy v then Some v else None
       | None => None
       end.

(** ** The echo document *)

(** A header value in the document: [rebuildHeaders] stores [undefined]
    when the raw sequence ends on a name. *)
Inductive hvalue :=
  | HUndefined
  | HString (s : string).

Record EchoDocument `{Platform} := {
  echo_path : string;
  echo_headers : gmap string hvalue;
  echo_method : string;
  echo_body : string;
  echo_cookies : gmap string string;
  echo_fresh : bool;
  echo_hostname : string;
  echo_ip : string;
  echo_ips : list string;
  echo_protocol : string;
  echo_query : gmap string qvalue;
  echo_subdomains : list string;
  echo_xhr : bool;
  echo_os_hostname : string;
  echo_connection_servername : string;
  (** the fields below are absent ([None]) until they are assigned *)
  echo_clientCertificate : option certificate;
  echo_env : option (gmap string string);
  echo_json : option json;
  (** [Some None] is [jwt: null] *)
  echo_jwt : option (option jwt);
}.

(** ** The response side of Koa's context, and the world around a request *)

Inductive Body `{Platform} :=
  | BodyNull
  | BodyString (s : string)
  (** the object [{ error: message }] *)
  | BodyError (message : string)
  | BodyEcho (echo : EchoDocument).

Record Response `{Platform} := {
  (** [None]: not assigned *)
  res_status : option Z;
  res_body : option Body;
  res_type : option qvalue;
  (** the calls of [ctx.set(name, value)], oldest first *)
  res_set : list (string * string);
}.

Inductive LogEntry `{Platform} :=
  (** [logger.warn(msg)] *)
  | LogWarn (msg : string)
  (** [logger.info({ req: echo }, "request")] *)
  | LogRequest (echo : EchoDocument)
  (** the access-log line, without its wall-clock duration *)
  | LogAccess (method url : string) (status : Z).

Record World `{Platform} := {
  response : Response;
  (** what the pino logger has written, oldest first *)
  log : list LogEntry;
  (** the observations of [httpDuration], oldest first *)
  histogram : list Observation;
  (** the echo objects constructed so far *)
  documents : list EchoDocument;
  (** the [setTimeout] delays awaited, in milliseconds *)
  delays : list Z;
}.

Definition set_response `{Platform} (r : Response) (w : World) : World :=
  {| response := r; log := log w; histogram := histogram w;
     documents := documents w; delays := delays w |}.

(** [ctx.status = code] *)
Definition set_status `{Platform} (code : Z) (w : World) : World :=
  set_response
    {| res_status := Some code; res_body := res_body (response w);
       res_type := res_type (response w); res_set := res_set (response w) |} w.

(** [ctx.body = b] *)
Definition set_body `{Platform} (b : Body) (w : World) : World :=
  set_response
    {| res_status := res_status (response w); res_body := Some b;
       res_type := res_type (response w); res_set := res_set (response w) |} w.

(** [ctx.type = t] *)
Definition set_type `{Platform} (t : qvalue) (w : World) : World :=
  set_response
    {| res_status := res_status (response w); res_body := res_body (response w);
       res_type := Some t; res_set := res_set (response w) |} w.

(** [ctx.set(name, value)] *)
Definition ctx_set `{Platform} (name value : string) (w : World) : World :=
  set_response
    {| res_status := res_status (response w); res_body := res_body (response w);
       res_type := res_type (response w);
       res_set := res_set (response w) ++ [(name, value)] |} w.

(** The getter [ctx.status]: the status code Koa holds for a response with
    these assignments. *)
Class Koa `{Platform} := {
  ctx_status : Response → Z;
}.

(** The pino logger: it writes only when enabled. *)
Record Logger := { enabled : bool }.

Definition write `{Platform} (logger : Logger) (e : LogEntry) (w : World)
  : World :=
  if enabled logger
  then {| response := response w; log := log w ++ [e];
          histogram := histogram w; documents := documents w;
          delays := delays w |}
  else w.

(** [httpDuration.startTimer()(labels)] *)
Definition observe `{Platform} (labels : gmap string string) (w : World)
  : World :=
  {| response := response w; log := log w;
     histogram := histogram w ++ [{| obs_labels := labels |}];
     documents := documents w; delays := delays w |}.

(** [await new Promise((resolve) => setTimeout(resolve, ms))] *)
Definition sleep `{Platform} (ms : Z) (w : World) : World :=
  {| response := response w; log := log w; histogram := histogram w;
     documents := documents w; delays := delays w ++ [ms] |}.

(** One more echo object is complete: it is recorded when the handler is
    done assigning its fields, as it then is.  A handler that throws while
    it fills the object records none. *)
Definition constructed `{Platform} (echo : EchoDocument) (w : World) : World :=
  {| response := response w; log := log w; histogram := histogram w;
     documents := documents w ++ [echo]; delays := delays w |}.

(** How an [async] function settles: it returns, or it rejects with an
    error; either way it leaves a world behind. *)
Inductive Outcome `{Platform} :=
  | Done (w : World)
  | Failed (error : string) (w : World).

(** The world an outcome leaves behind. *)
Definition final `{Platform} (o : Outcome) : World :=
  match o with
  | Done w => w
  | Failed _ w => w
  end.

(** The message of the error an outcome rejects with. *)
Definition failure `{Platform} (o : Outcome) : option string :=
  match o with
  | Done _ => None
  | Failed error _ => Some error
  end.

(** ** echo.ts *)

Record EchoConfig := {
  echoBackToClient : bool;
  overrideResponseBody : option string;
  preserveHeaderCase : bool;
  includeEnvVars : bool;
  jwtHeader : option string;
  (** the source of the [RegExp], [None] for [null] *)
  logIgnorePath : option string;
  logWithoutNewline : bool;
  logger : Logger;
}.

(** The local variables of [readBody]. *)
Module Reader.
Record t := {
  chunks : list (list byte);
  size : Z;
  exceeded : bool;
}.
Definition init : t := {| chunks := []; size := 0; exceeded := false |}.
End Reader.

(** How the promise of [readBody] settles. *)
Inductive settled :=
  | Resolved (body : string)
  | Rejected (message : string).

Section echo.
Context `{Platform}.

(** [process.env] *)
Variable env : gmap string string.

Definition MAX_BODY_SIZE : option Z :=
  JS.parseInt (JS.or_default (env !! "MAX_BODY_SIZE") "1048576").

(** [MAX_BODY_SIZE > 0 && size > MAX_BODY_SIZE] *)
Definition over_limit (size : Z) : bool :=
  match MAX_BODY_SIZE with
  | Some m => (0 <? m) && (m <? size)
  | None => false
  end.

(** The listener of [data]. *)
Definition on_data (st : Reader.t) (chunk : list byte) : Reader.t :=
  let size := Reader.size st + Z.of_nat (length chunk) in
  let exceeded :=
    if negb (Reader.exceeded st) && over_limit size then true
    else Reader.exceeded st in
  {| Reader.chunks :=
       if negb exceeded then Reader.chunks st ++ [chunk]
       else Reader.chunks st;
     Reader.size := size;
     Reader.exceeded := exceeded |}.

(** The listener of [end]. *)
Definition on_end (st : Reader.t) : settled :=
  if Reader.exceeded st
  then Rejected ("Body exceeds max size of "
                 +:+ from_option JS.numberToString "NaN" MAX_BODY_SIZE
                 +:+ " bytes")
  else Resolved (utf8 (concat (Reader.chunks st))).

(** The stream [readBody] listens to. *)
Definition body_stream (ctx : Request) : stream :=
  if decide (get ctx "content-encoding" = "gzip")
  then gunzip (req_stream ctx) else req_stream ctx.

(** The reader once every [data] event of the stream has been handled. *)
Definition drained (s : stream) : Reader.t :=
  foldl on_data Reader.init (stream_data s).

Definition readBody (ctx : Request) : settled :=
  match stream_ending (body_stream ctx) with
  | End => on_end (drained (body_stream ctx))
  | Error message => Rejected message
  end.

(** One turn of the loop of [parseCookies]. *)
Definition cookie_pair (cookies : gmap string string) (pair : string)
  : gmap string string :=
  let idx := JS.indexOf "=" pair in
  if 0 <? idx
  then JS.setProp (JS.trim (JS.slice pair 0 idx))
                  (JS.trim (JS.sliceFrom pair (idx + 1))) cookies
  else cookies.

Definition parseCookies (header : option string) : gmap string string :=
  match header with
  | None => ∅
  | Some h =>
      if JS.truthy h then foldl cookie_pair ∅ (JS.split ";" h) else ∅
  end.

(** The loop of [rebuildHeaders], two entries a turn; past the end
    [rawHeaders[i + 1]] is [undefined]. *)
Fixpoint rebuild (headers : gmap string hvalue) (rawHeaders : list string)
  : gmap string hvalue :=
  match rawHeaders with
  | [] => headers
  | [name] => JS.setProp name HUndefined headers
  | name :: value :: rest =>
      rebuild (JS.setProp name (HString value) headers) rest
  end.

Definition rebuildHeaders (rawHeaders : list string) : gmap string hvalue :=
  rebuild ∅ rawHeaders.

(** [(ctx.req.socket as TLSSocket).servername || ""] *)
Definition servername_of (s : socket) : string :=
  match s with
  | PlainSocket => ""
  | TLSSocket name _ => JS.or_default name ""
  end.

(** The object literal of [const echo]. *)
Definition literal (config : EchoConfig) (ctx : Request) (body : string)
  : EchoDocument :=
  {| echo_path := req_path ctx;
     echo_headers :=
       if preserveHeaderCase config then rebuildHeaders (req_rawHeaders ctx)
       else HString <$> req_headers ctx;
     echo_method := req_method ctx;
     echo_body := body;
     echo_cookies := parseCookies (Some (get ctx "cookie"));
     echo_fresh := req_fresh ctx;
     echo_hostname := req_hostname ctx;
     echo_ip := req_ip ctx;
     echo_ips := req_ips ctx;
     echo_protocol := req_protocol ctx;
     echo_query := req_query ctx;
     echo_subdomains := req_subdomains ctx;
     echo_xhr :=
       bool_decide (JS.toLowerCase (JS.or_else (get ctx "x-requested-with") "")
                    = "xmlhttprequest");
     echo_os_hostname := hostname;
     echo_connection_servername := servername_of (req_socket ctx);
     echo_clientCertificate := None;
     echo_env := None;
     echo_json := None;
     echo_jwt := None |}.

(** [echo.clientCertificate = cert], on a TLS socket with a certificate. *)
Definition with_clientCertificate (ctx : Request) (e : EchoDocument)
  : EchoDocument :=
  match req_socket ctx with
  | TLSSocket _ (Some cert) =>
      {| echo_path := echo_path e; echo_headers := echo_headers e;
         echo_method := echo_method e; echo_body := echo_body e;
         echo_cookies := echo_cookies e; echo_fresh := echo_fresh e;
         echo_hostname := echo_hostname e; echo_ip := echo_ip e;
         echo_ips := echo_ips e; echo_protocol := echo_protocol e;
         echo_query := echo_query e; echo_subdomains := echo_subdomains e;
         echo_xhr := echo_xhr e; echo_os_hostname := echo_os_hostname e;
         echo_connection_servername := echo_connection_servername e;
         echo_clientCertificate := Some cert;
         echo_env := echo_env e; echo_json := echo_json e;
         echo_jwt := echo_jwt e |}
  | _ => e
  end.

(** [echo.env = process.env] *)
Definition with_env (config : EchoConfig) (e : EchoDocument) : EchoDocument :=
  if includeEnvVars config
  then {| echo_path := echo_path e; echo_headers := echo_headers e;
          echo_method := echo_method e; echo_body := echo_body e;
          echo_cookies := echo_cookies e; echo_fresh := echo_fresh e;
          echo_hostname := echo_hostname e; echo_ip := echo_ip e;
          echo_ips := echo_ips e; echo_protocol := echo_protocol e;
          echo_query := echo_query e; echo_subdomains := echo_subdomains e;
          echo_xhr := echo_xhr e; echo_os_hostname := echo_os_hostname e;
          echo_connection_servername := echo_connection_servername e;
          echo_clientCertificate := echo_clientCertificate e;
          echo_env := Some env; echo_json := echo_json e;
          echo_jwt := echo_jwt e |}
  else e.

(** [echo.json = value] *)
Definition set_json (value : json) (e : EchoDocument) : EchoDocument :=
  {| echo_path := echo_path e; echo_headers := echo_headers e;
     echo_method := echo_method e; echo_body := echo_body e;
     echo_cookies := echo_cookies e; echo_fresh := echo_fresh e;
     echo_hostname := echo_hostname e; echo_ip := echo_ip e;
     echo_ips := echo_ips e; echo_protocol := echo_protocol e;
     echo_query := echo_query e; echo_subdomains := echo_subdomains e;
     echo_xhr := echo_xhr e; echo_os_hostname := echo_os_hostname e;
     echo_connection_servername := echo_connection_servername e;
     echo_clientCertificate := echo_clientCertificate e;
     echo_env := echo_env e; echo_json := Some value;
     echo_jwt := echo_jwt e |}.

(** [echo.jwt = value] *)
Definition set_jwt (value : option jwt) (e : EchoDocument) : EchoDocument :=
  {| echo_path := echo_path e; echo_headers := echo_headers e;
     echo_method := echo_method e; echo_body := echo_body e;
     echo_cookies := echo_cookies e; echo_fresh := echo_fresh e;
     echo_hostname := echo_hostname e; echo_ip := echo_ip e;
     echo_ips := echo_ips e; echo_protocol := echo_protocol e;
     echo_query := echo_query e; echo_subdomains := echo_subdomains e;
     echo_xhr := echo_xhr e; echo_os_hostname := echo_os_hostname e;
     echo_connection_servername := echo_connection_servername e;
     echo_clientCertificate := echo_clientCertificate e;
     echo_env := echo_env e; echo_json := echo_json e;
     echo_jwt := Some value |}.

(** [if (ctx.is("application/json")) { try { echo.json = JSON.parse(body) }
    catch { config.logger.warn(...) } }] *)
Definition json_step (config : EchoConfig) (ctx : Request) (body : string)
    (ew : EchoDocument * World) : EchoDocument * World :=
  if req_is ctx "application/json"
  then match JSON_parse body with
       | Some value => (set_json value ew.1, ew.2)
       | None =>
           (ew.1,
            write (logger config)
              (LogWarn "Invalid JSON body with Content-Type: application/json")
              ew.2)
       end
  else ew.

(** [config.jwtHeader] is truthy. *)
Definition jwt_header (config : EchoConfig) : option string :=
  match jwtHeader config with
  | Some name => if JS.truthy name then Some name else None
  | None => None
  end.

(** [if (config.jwtHeader) { ... }]: the call of [decode] is not inside a
    [try], so what it throws leaves the handler. *)
Definition jwt_step (config : EchoConfig) (ctx : Request) (e : EchoDocument)
  : completion EchoDocument :=
  match jwt_header config with
  | Some name =>
      let token := get ctx name in
      if JS.truthy token
      then match decode (List.last (JS.split " " token) "") with
           | Returned value => Returned (set_jwt value e)
           | Thrown message => Thrown message
           end
      else Returned (set_jwt None e)
  | None => Returned e
  end.

(** The handler from [const echo] to the JWT step: the echo object when
    the handler is done filling it, unless the JWT step throws, and the
    world after the warning it may have logged on the way. *)
Definition build (config : EchoConfig) (ctx : Request) (body : string)
    (w : World) : completion EchoDocument * World :=
  let ew :=
    json_step config ctx body
      (with_env config (with_clientCertificate ctx (literal config ctx body)),
       w) in
  (jwt_step config ctx ew.1, ew.2).

(** Custom HTTP status code. *)
Definition status_override (ctx : Request) (w : World) : World :=
  match headerOrQuery ctx "x-set-response-status-code" with
  | Some statusOverride =>
      match JS.parseInt (qToString statusOverride) with
      | Some code =>
          if (100 <=? code) && (code <? 600) then set_status code w else w
      | None => w
      end
  | None => w
  end.

(** Artificial delay. *)
Definition delay (ctx : Request) (w : World) : World :=
  let delayMs :=
    JS.parseInt
      (from_option qToString "0" (headerOrQuery ctx "x-set-response-delay-ms")) in
  match delayMs with
  | Some ms => if 0 <? ms then sleep ms w else w
  | None => w
  end.

(** Send response. *)
Definition send (config : EchoConfig) (ctx : Request) (body : string)
    (echo : EchoDocument) (w : World) : World :=
  if negb (echoBackToClient config) then set_body BodyNull w
  else if decide (req_query ctx !! "response_body_only" = Some (QString "true"))
  then set_body (BodyString body) w
  else set_body (BodyEcho echo) w.

(** [!config.logIgnorePath || !config.logIgnorePath.test(ctx.path)] *)
Definition logged (ignore : option string) (path : string) : bool :=
  match ignore with
  | Some source => negb (regexp_test source path)
  | None => true
  end.

(** The handler past the JWT step: response overrides, send, log. *)
Definition respond (config : EchoConfig) (ctx : Request) (body : string)
    (echo : EchoDocument) (w : World) : World :=
  let w := status_override ctx w in
  let w := delay ctx w in
  let contentTypeOverride := headerOrQuery ctx "x-set-response-content-type" in
  let w := send config ctx body echo w in
  let w := from_option (λ t, set_type t w) w contentTypeOverride in
  if logged (logIgnorePath config) (req_path ctx)
  then write (logger config) (LogRequest echo) w
  else w.

(** The handler from [const echo] on, with the body read.  When the JWT
    step throws, the handler rejects there: no later statement runs. *)
Definition reflect (config : EchoConfig) (ctx : Request) (body : string)
    (w : World) : Outcome :=
  let ew := build config ctx body w in
  match ew.1 with
  | Returned echo => Done (respond config ctx body echo (constructed echo ew.2))
  | Thrown error => Failed error ew.2
  end.

(** [config.overrideResponseBody] is truthy. *)
Definition override_body (config : EchoConfig) : option string :=
  match overrideResponseBody config with
  | Some content => if JS.truthy content then Some content else None
  | None => None
  end.

Definition echoHandler (config : EchoConfig) (ctx : Request) (w : World)
  : Outcome :=
  match override_body config with
  | Some content => Done (set_body (BodyString content) w)
  | None =>
      match readBody ctx with
      | Rejected message =>
          Done (set_body (BodyError message) (set_status 413 w))
      | Resolved body => reflect config ctx body w
      end
  end.
End echo.

(** ** Middleware *)

(** A Koa middleware [async (ctx, next) => { ... }]: [next] runs the rest of
    the stack.  [await next()] returns when the rest of the stack is done,
    and throws what the rest of the stack rejects with. *)
Definition Middleware `{Platform} : Type :=
  Request → (World → Outcome) → World → Outcome.

(** [app.callback()]: the middleware stack composed in order of [app.use];
    [next] of the last one does nothing. *)
Definition compose `{Platform} (stack : list Middleware) (ctx : Request)
  : World → Outcome :=
  foldr (λ middleware next, middleware ctx next) Done stack.

Section app.
Context `{Koa}.

(** [process.env] *)
Variable env : gmap string string.

(** The files on disk at startup: path and content. *)
Variable fs : gmap string string.

(** An environment variable, when set to a truthy string. *)
Definition env_truthy (name : string) : option string :=
  match env !! name with
  | Some value => if JS.truthy value then Some value else None
  | None => None
  end.

(** *** metrics.ts *)

Definition PROMETHEUS_WITH_PATH : string :=
  default "false" (env !! "PROMETHEUS_WITH_PATH").
Definition PROMETHEUS_WITH_METHOD : string :=
  default "true" (env !! "PROMETHEUS_WITH_METHOD").
Definition PROMETHEUS_WITH_STATUS : string :=
  default "true" (env !! "PROMETHEUS_WITH_STATUS").


Definition metricsEndpoint : Middleware := λ ctx next w,
  let w := ctx_set "Content-Type" register_contentType w in
  Done (set_body (BodyString (register_metrics (histogram w))) w).

(** There is no [try] around [await next()]: when the rest of the stack
    rejects, the statements after it, [end(labels)] among them, do not
    run. *)
Definition metricsMiddleware : Middleware := λ ctx next w,
  match next w with
  | Failed error w => Failed error w
  | Done w =>
      let labels : gmap string string := ∅ in
      let labels :=
        if decide (PROMETHEUS_WITH_PATH = "true")
        then <["path" := req_path ctx]> labels else labels in
      let labels :=
        if decide (PROMETHEUS_WITH_METHOD = "true")
        then <["method" := req_method ctx]> labels else labels in
      let labels :=
        if decide (PROMETHEUS_WITH_STATUS = "true")
        then <["status" := JS.numberToString (ctx_status (response w))]> labels
        else labels in
      Done (observe labels w)
  end.

(** *** app.ts *)

Definition DISABLE_REQUEST_LOGS : bool :=
  bool_decide (env !! "DISABLE_REQUEST_LOGS" = Some "true").
Definition LOG_IGNORE_PATH : option string := env_truthy "LOG_IGNORE_PATH".
Definition LOG_WITHOUT_NEWLINE : bool :=
  bool_decide (env !! "LOG_WITHOUT_NEWLINE" = Some "true").

Definition ECHO_BACK_TO_CLIENT : bool :=
  bool_decide (env !! "ECHO_BACK_TO_CLIENT" ≠ Some "false").
Definition OVERRIDE_FILE : option string :=
  env !! "OVERRIDE_RESPONSE_BODY_FILE_PATH".
Definition PRESERVE_HEADER_CASE : bool :=
  bool_decide (env !! "PRESERVE_HEADER_CASE" = Some "true").
Definition INCLUDE_ENV_VARS : bool :=
  bool_decide (env !! "ECHO_INCLUDE_ENV_VARS" = Some "true").
Definition JWT_HEADER : option string := env !! "JWT_HEADER".

Definition CORS_ORIGIN : option string := env_truthy "CORS_ALLOW_ORIGIN".
Definition CORS_METHODS : option string := env_truthy "CORS_ALLOW_METHODS".
Definition CORS_HEADERS : option string := env_truthy "CORS_ALLOW_HEADERS".
Definition CORS_CREDENTIALS : option string :=
  env_truthy "CORS_ALLOW_CREDENTIALS".

Definition PROMETHEUS_ENABLED : bool :=
  bool_decide (env !! "PROMETHEUS_ENABLED" = Some "true").
Definition PROMETHEUS_PATH : string :=
  JS.or_default (env !! "PROMETHEUS_METRICS_PATH") "/metrics".

(** [OVERRIDE_FILE && existsSync(OVERRIDE_FILE)
     ? readFileSync(OVERRIDE_FILE, "utf-8") : undefined] *)
Definition overrideBody : option string :=
  match OVERRIDE_FILE with
  | Some file => if JS.truthy file then fs !! file else None
  | None => None
  end.

(** [pino({ enabled: !DISABLE_REQUEST_LOGS })] *)
Definition app_logger : Logger := {| enabled := negb DISABLE_REQUEST_LOGS |}.

(** CORS: the headers on every response, and the preflight answer. *)
Definition cors (origin : string) : Middleware := λ ctx next w,
  let w := ctx_set "Access-Control-Allow-Origin" origin w in
  let w :=
    from_option (λ v, ctx_set "Access-Control-Allow-Methods" v w) w
      CORS_METHODS in
  let w :=
    from_option (λ v, ctx_set "Access-Control-Allow-Headers" v w) w
      CORS_HEADERS in
  let w :=
    from_option (λ v, ctx_set "Access-Control-Allow-Credentials" v w) w
      CORS_CREDENTIALS in
  if decide (req_method ctx = "OPTIONS") then Done (set_status 204 w)
  else next w.

(** HTTP access log.  There is no [try] around [await next()]: when the
    rest of the stack rejects, no line is written. *)
Definition accessLog : Middleware := λ ctx next w,
  match next w with
  | Failed error w => Failed error w
  | Done w =>
      Done (if logged LOG_IGNORE_PATH (req_path ctx)
            then write app_logger
                   (LogAccess (req_method ctx) (req_url ctx)
                      (ctx_status (response w))) w
            else w)
  end.

(** Prometheus metrics. *)
Definition prometheus : Middleware := λ ctx next w,
  if decide (req_path ctx = PROMETHEUS_PATH ∧ req_method ctx = "GET")
  then metricsEndpoint ctx next w
  else metricsMiddleware ctx next w.

(** The configuration [createApp] hands to [echoHandler]. *)
Definition echoConfig : EchoConfig :=
  {| echoBackToClient := ECHO_BACK_TO_CLIENT;
     overrideResponseBody := overrideBody;
     preserveHeaderCase := PRESERVE_HEADER_CASE;
     includeEnvVars := INCLUDE_ENV_VARS;
     jwtHeader := JWT_HEADER;
     logIgnorePath := LOG_IGNORE_PATH;
     logWithoutNewline := LOG_WITHOUT_NEWLINE;
     logger := app_logger |}.

(** The middleware stack of [createApp], in order of [app.use]. *)
Definition createApp : list Middleware :=
  from_option (λ origin, [cors origin]) [] CORS_ORIGIN
  ++ (if DISABLE_REQUEST_LOGS then [] else [accessLog])
  ++ (if PROMETHEUS_ENABLED then [prometheus] else [])
  ++ [λ ctx next, echoHandler env echoConfig ctx].

(** One request through the application. *)
Definition serve (ctx : Request) (w : World) : Outcome :=
  compose createApp ctx w.
End app.

(** ** index.ts *)

(** The options handed to [createServer]; an option that is not passed is
    [None]. *)
Record ServerOptions := {
  opt_key : option string;
  opt_cert : option string;
  opt_requestCert : option bool;
  opt_rejectUnauthorized : option bool;
  opt_maxHeaderSize : option Z;
}.

(** A server and the port it listens on ([None] is [NaN]). *)
Record Listener := {
  listener_options : ServerOptions;
  listener_port : option Z;
}.

Section index.
(** [process.env] *)
Variable env : gmap string string.

(** The files on disk at startup: path and content. *)
Variable fs : gmap string string.

Definition HTTP_PORT : option Z :=
  JS.parseInt
    (JS.or_default (env !! "HTTP_PORT") (JS.or_default (env !! "PORT") "8080")).

Definition HTTPS_PORT : option Z :=
  JS.parseInt (JS.or_default (env !! "HTTPS_PORT") "8443").

(** [number | undefined]: [None] is [undefined], [Some None] is [NaN]. *)
Definition MAX_HEADER_SIZE : option (option Z) :=
  JS.parseInt <$> env_truthy env "MAX_HEADER_SIZE".

Definition HTTPS_KEY_FILE : string :=
  JS.or_default (env !! "HTTPS_KEY_FILE") "testpk.pem".
Definition HTTPS_CERT_FILE : string :=
  JS.or_default (env !! "HTTPS_CERT_FILE") "fullchain.pem".

(** [existsSync(HTTPS_KEY_FILE) && existsSync(HTTPS_CERT_FILE)] *)
Definition ENABLE_HTTPS : bool :=
  bool_decide (is_Some (fs !! HTTPS_KEY_FILE))
  && bool_decide (is_Some (fs !! HTTPS_CERT_FILE)).

Definition MTLS_ENABLE : bool :=
  bool_decide (env !! "MTLS_ENABLE" = Some "true").

(** [MAX_HEADER_SIZE], when it is truthy: a number that is neither [NaN]
    nor 0. *)
Definition maxHeaderSize : option Z :=
  match MAX_HEADER_SIZE with
  | Some (Some size) => if decide (size = 0) then None else Some size
  | _ => None
  end.

(** [MAX_HEADER_SIZE ? { maxHeaderSize: MAX_HEADER_SIZE } : {}] *)
Definition httpOpts : ServerOptions :=
  {| opt_key := None; opt_cert := None; opt_requestCert := None;
     opt_rejectUnauthorized := None; opt_maxHeaderSize := maxHeaderSize |}.

(** The object literal of [httpsOpts], with its two spreads. *)
Definition httpsOpts : ServerOptions :=
  {| opt_key := fs !! HTTPS_KEY_FILE;
     opt_cert := fs !! HTTPS_CERT_FILE;
     opt_requestCert := if MTLS_ENABLE then Some true else None;
     opt_rejectUnauthorized := if MTLS_ENABLE then Some false else None;
     opt_maxHeaderSize := maxHeaderSize |}.

Definition httpServer : Listener :=
  {| listener_options := httpOpts; listener_port := HTTP_PORT |}.

(** [let httpsServer]: assigned only [if (ENABLE_HTTPS)]. *)
Definition httpsServer : option Listener :=
  if ENABLE_HTTPS
  then Some {| listener_options := httpsOpts; listener_port := HTTPS_PORT |}
  else None.
End index.

(** ** A concrete platform and concrete requests, to run the model on *)

Module Demo.

(** A token that decodes: its header is [{"alg":"HS256","typ":"JWT"}] and
    its payload [{"sub":"1234567890"}], in base64url. *)
Definition token : string :=
  "eyJhbGciOiJIUzI1NiIsInR5cCI6IkpXVCJ9.eyJzdWIiOiIxMjM0NTY3ODkwIn0.c2ln".

(** A token on which [decode] throws: its header is [{"typ":"JWT"}] and its
    payload a single blank, in base64url, which is no JSON text. *)
Definition malformed : string := "eyJ0eXAiOiJKV1QifQ.IA.c2ln".

(** The platform on the inputs of the runs below.  [JSON.parse] and
    [decode] are tables: the JSON texts [null], [true], [false], [{}] and
    [[]] parse, and stand for their values; [token] decodes, [malformed]
    makes [decode] throw the [SyntaxError] of [JSON.parse], and the other
    strings of the runs are not tokens ([null]). *)
Definition platform : Platform :=
  {| json := string;
     JSON_parse := λ s,
       if decide (s ∈ ["null"; "true"; "false"; "{}"; "[]"]) then Some s
       else None;
     jwt := string;
     decode := λ t,
       if decide (t = token) then Returned (Some t)
       else if decide (t = malformed)
       then Thrown "Unexpected end of JSON input"
       else Returned None;
     certificate := string;
     gunzip := λ s, s;
     utf8 := string_of_list_byte;
     hostname := "demo";
     regexp_test := String.prefix;
     register_contentType := "text/plain; version=0.0.4; charset=utf-8";
     register_metrics := λ h, "observations " +:+ pretty (length h) |}.

(** Koa's status: 404 until something is assigned; assigning a body
    makes it 200 unless a status was assigned before, and assigning [null]
    makes it 204 unless it is 204, 205 or 304 already.  The sources assign
    the status before the body. *)
Definition koa : @Koa platform :=
  {| ctx_status := λ r,
       match res_status r, res_body r with
       | Some code, Some BodyNull =>
           if decide (code ∈ [204; 205; 304]) then code else 204
       | Some code, _ => code
       | None, Some BodyNull => 204
       | None, Some _ => 200
       | None, None => 404
       end |}.

(** The query string of a URL, for values that need no escaping. *)
Definition search (query : list (string * qvalue)) : string :=
  let pairs :=
    query ≫= (λ p, (λ value, p.1 +:+ "=" +:+ value) <$>
                     match p.2 with QString s => [s] | QArray l => l end) in
  foldr (λ pair rest, if decide (rest = "") then pair
                      else pair +:+ "&" +:+ rest) "" pairs.

(** A request over a plain socket, its body arriving in the given chunks. *)
Definition request (method path : string) (headers : list (string * string))
    (query : list (string * qvalue)) (chunks : list string)
  : @Request platform :=
  {| req_path := path;
     req_method := method;
     req_url :=
       if decide (query = []) then path else path +:+ "?" +:+ search query;
     req_headers := list_to_map (prod_map JS.toLowerCase id <$> headers);
     req_rawHeaders := headers ≫= (λ h, [h.1; h.2]);
     req_query := list_to_map query;
     req_is := λ type,
       bool_decide (type = "application/json"
                    ∧ (list_to_map (prod_map JS.toLowerCase id <$> headers)
                         : gmap string string)
                        !! "content-type" = Some "application/json");
     req_fresh := false;
     req_hostname := "localhost";
     req_ip := "::1";
     req_ips := [];
     req_protocol := "http";
     req_subdomains := [];
     req_socket := PlainSocket;
     req_stream :=
       {| stream_data := list_byte_of_string <$> chunks;
          stream_ending := End |} |}.


(** The world before a request is handled. *)
Definition world : @World platform :=
  {| response :=
       {| res_status := None; res_body := None; res_type := None;
          res_set := [] |};
     log := []; histogram := []; documents := []; delays := [] |}.

(** The configuration of a process started without environment. *)
Definition config : EchoConfig :=
  {| echoBackToClient := true;
     overrideResponseBody := None;
     preserveHeaderCase := false;
     includeEnvVars := false;
     jwtHeader := None;
     logIgnorePath := None;
     logWithoutNewline := false;
     logger := {| enabled := true |} |}.

(** The same with an override response body. *)
Definition static (content : string) : EchoConfig :=
  {| echoBackToClient := true;
     overrideResponseBody := Some content;
     preserveHeaderCase := false;
     includeEnvVars := false;
     jwtHeader := None;
     logIgnorePath := None;
     logWithoutNewline := false;
     logger := {| enabled := true |} |}.

(** [ECHO_BACK_TO_CLIENT=false], with or without an override response
    body. *)
Definition silent (override : option string) : EchoConfig :=
  {| echoBackToClient := false;
     overrideResponseBody := override;
     preserveHeaderCase := false;
     includeEnvVars := false;
     jwtHeader := None;
     logIgnorePath := None;
     logWithoutNewline := false;
     logger := {| enabled := true |} |}.

(** [PRESERVE_HEADER_CASE=true] *)
Definition cased : EchoConfig :=
  {| echoBackToClient := true;
     overrideResponseBody := None;
     preserveHeaderCase := true;
     includeEnvVars := false;
     jwtHeader := None;
     logIgnorePath := None;
     logWithoutNewline := false;
     logger := {| enabled := true |} |}.

End Demo.

(** ** More configurations to run the model on *)

Module Sample.

(** [JWT_HEADER=authorization] and [ECHO_INCLUDE_ENV_VARS=true] *)
Definition verbose : EchoConfig :=
  {| echoBackToClient := true;
     overrideResponseBody := None;
     preserveHeaderCase := false;
     includeEnvVars := true;
     jwtHeader := Some "authorization";
     logIgnorePath := None;
     logWithoutNewline := false;
     logger := {| enabled := true |} |}.

(** A request with a bearer token, a cookie, and overrides in the query. *)
Definition call : @Request Demo.platform :=
  Demo.request "POST" "/orders"
    [("Authorization", "Bearer " +:+ Demo.token);
     ("Cookie", " sid = 42 ;lang=en")]
    [("response_body_only", QString "true");
     ("x-set-response-delay-ms", QString "250");
     ("x-set-response-content-type", QString "text/plain");
     ("x-set-response-status-code", QArray ["201"; "500"])]
    ["{}"].


End Sample.

(** ** Vocabulary of the statements *)

(** The message of the error the JWT step throws on a request; [None]
    when the step returns. *)
Definition jwt_error `{Platform} (config : EchoConfig) (ctx : Request)
  : option string :=
  match jwt_header config with
  | Some name =>
      if JS.truthy (get ctx name)
      then match decode (List.last (JS.split " " (get ctx name)) "") with
           | Returned _ => None
           | Thrown message => Some message
           end
      else None
  | None => None
  end.

(** The number of bytes a sequence of chunks carries. *)
Definition byte_length (chunks : list (list byte)) : Z :=
  Z.of_nat (length (concat chunks)).

(** The body [send] assigns. *)
Definition sent `{Platform} (config : EchoConfig) (ctx : Request)
    (body : string) (echo : EchoDocument) : Body :=
  if negb (echoBackToClient config) then BodyNull
  else if decide (req_query ctx !! "response_body_only" = Some (QString "true"))
  then BodyString body
  else BodyEcho echo.

(** The pairs of a raw header sequence: name and value, the last name with
    [undefined] when the sequence has odd length. *)
Fixpoint raw_pairs (rawHeaders : list string) : list (string * hvalue) :=
  match rawHeaders with
  | [] => []
  | [name] => [(name, HUndefined)]
  | name :: value :: rest => (name, HString value) :: raw_pairs rest
  end.

(** The value of the last pair with key [k]. *)
Definition last_value {V} (k : string) (pairs : list (string * V)) : option V :=
  snd <$> last (filter (λ p, p.1 = k) pairs).

(** What one pair of a Cookie header contributes: the trimmed texts before
    and after its first [=], when that [=] is not its first character. *)
Definition cookie_entry (pair : string) : option (string * string) :=
  let idx := JS.indexOf "=" pair in
  if 0 <? idx
  then Some (JS.trim (JS.slice pair 0 idx), JS.trim (JS.sliceFrom pair (idx + 1)))
  else None.

(** The response headers the CORS middleware sets, in the order it sets
    them. *)
Definition cors_headers (env : gmap string string) (origin : string)
  : list (string * string) :=
  ([("Access-Control-Allow-Origin", origin)]
   ++ from_option (λ v, [("Access-Control-Allow-Methods", v)]) []
        (CORS_METHODS env)
   ++ from_option (λ v, [("Access-Control-Allow-Headers", v)]) []
        (CORS_HEADERS env)
   ++ from_option (λ v, [("Access-Control-Allow-Credentials", v)]) []
        (CORS_CREDENTIALS env))%list.

(** The code units of a string. *)
Definition chars (s : string) : list ascii := list_ascii_of_string s.

(** A string that does not begin with white space. *)
Definition clean_head (s : string) : Prop :=
  match s with
  | EmptyString => True
  | String c _ => JS.isWhiteSpace c = false
  end.

(** The fields of a document that are read from the context. *)
Definition request_fields `{Platform} (e : EchoDocument) :=
  (echo_path e, echo_method e, echo_query e, echo_fresh e, echo_hostname e,
   echo_ip e, echo_ips e, echo_protocol e, echo_subdomains e,
   echo_os_hostname e, echo_cookies e).

(** The fields of a document that are attached after the literal. *)
Definition attached_fields `{Platform} (e : EchoDocument) :=
  (echo_clientCertificate e, echo_env e, echo_jwt e).

(** * Facts *)

(** ** The body reader *)

Section reader_facts.
Context `{Platform}.
Variable env : gmap string string.

Lemma byte_length_nil : byte_length [] = 0.
Proof. reflexivity. Qed.

Lemma byte_length_cons c cs :
  byte_length (c :: cs) = Z.of_nat (length c) + byte_length cs.
Proof. unfold byte_length. simpl. rewrite length_app. lia. Qed.

Lemma byte_length_nonneg cs : 0 ≤ byte_length cs.
Proof. unfold byte_length. lia. Qed.

Lemma over_limit_mono a b :
  a ≤ b → over_limit env a = true → over_limit env b = true.
Proof.
  unfold over_limit. destruct (MAX_BODY_SIZE env) as [m|]; [|done].
  intros Hab [Hm Ha]%andb_prop. apply andb_true_intro. lia.
Qed.

Lemma over_limit_spec m size :
  MAX_BODY_SIZE env = Some m → 0 < m →
  over_limit env size = bool_decide (m < size).
Proof.
  intros Hm Hpos. unfold over_limit. rewrite Hm.
  case_bool_decide; apply andb_true_iff || apply andb_false_iff; lia.
Qed.

(** Every chunk is counted, whatever the state. *)
Lemma drain_size st cs :
  Reader.size (foldl (on_data env) st cs) = Reader.size st + byte_length cs.
Proof.
  revert st. induction cs as [|c cs IH]; intros st; simpl.
  - rewrite byte_length_nil. lia.
  - rewrite IH, byte_length_cons. simpl. lia.
Qed.

(** Once the limit is exceeded nothing is accumulated any more. *)
Lemma drain_stuck st cs :
  Reader.exceeded st = true →
  Reader.exceeded (foldl (on_data env) st cs) = true
  ∧ Reader.chunks (foldl (on_data env) st cs) = Reader.chunks st.
Proof.
  revert st. induction cs as [|c cs IH]; intros st Hex; simpl; [done|].
  destruct (IH (on_data env st c)) as [-> ->].
  - unfold on_data. simpl. rewrite Hex. done.
  - unfold on_data. simpl. rewrite Hex. done.
Qed.

(** Below the limit every chunk is accumulated, in order. *)
Lemma drain_within st cs :
  Reader.exceeded st = false →
  over_limit env (Reader.size st + byte_length cs) = false →
  Reader.exceeded (foldl (on_data env) st cs) = false
  ∧ Reader.chunks (foldl (on_data env) st cs) = (Reader.chunks st ++ cs)%list.
Proof.
  revert st. induction cs as [|c cs IH]; intros st Hex Hlim; simpl.
  - by rewrite app_nil_r.
  - rewrite byte_length_cons in Hlim.
    assert (over_limit env (Reader.size st + Z.of_nat (length c)) = false)
      as Hc.
    { destruct (over_limit env (Reader.size st + Z.of_nat (length c))) eqn:E;
        [|done].
      rewrite <- Hlim. symmetry. eapply over_limit_mono; [|exact E].
      pose proof (byte_length_nonneg cs). lia. }
    destruct (IH (on_data env st c)) as [-> ->].
    + unfold on_data. simpl. by rewrite Hex, Hc.
    + unfold on_data. simpl. rewrite <- Z.add_assoc. done.
    + unfold on_data. simpl. rewrite Hex, Hc. simpl.
      by rewrite <- app_assoc.
Qed.

(** Past the limit exactly the chunks before the one that crosses it are
    accumulated. *)
Lemma drain_over st cs :
  Reader.exceeded st = false →
  over_limit env (Reader.size st) = false →
  over_limit env (Reader.size st + byte_length cs) = true →
  ∃ n, (n < length cs)%nat
    ∧ Reader.exceeded (foldl (on_data env) st cs) = true
    ∧ Reader.chunks (foldl (on_data env) st cs)
      = (Reader.chunks st ++ take n cs)%list
    ∧ over_limit env (Reader.size st + byte_length (take n cs)) = false
    ∧ over_limit env (Reader.size st + byte_length (take (S n) cs)) = true.
Proof.
  revert st. induction cs as [|c cs IH]; intros st Hex Hst Hlim.
  - rewrite byte_length_nil, Z.add_0_r in Hlim. congruence.
  - destruct (over_limit env (Reader.size st + Z.of_nat (length c))) eqn:Hc.
    + (* this chunk crosses the limit *)
      exists 0%nat. simpl.
      destruct (drain_stuck (on_data env st c) cs) as [-> ->].
      { unfold on_data. simpl. by rewrite Hex, Hc. }
      rewrite take_0, byte_length_nil, Z.add_0_r, byte_length_cons,
        byte_length_nil, Z.add_0_r.
      repeat split; [lia|..|done|done].
      unfold on_data. simpl. rewrite Hex, Hc. simpl. by rewrite app_nil_r.
    + (* it does not: a later one does *)
      destruct (IH (on_data env st c)) as (n & Hn & He & Hch & Hlo & Hhi).
      { unfold on_data. simpl. by rewrite Hex, Hc. }
      { done. }
      { simpl. rewrite byte_length_cons in Hlim.
        rewrite <- Z.add_assoc. done. }
      exists (S n). simpl.
      rewrite He, Hch.
      rewrite !byte_length_cons, !Z.add_assoc.
      simpl in Hlo, Hhi.
      repeat split; [lia|..|done|done].
      unfold on_data. simpl. rewrite Hex, Hc. simpl.
      by rewrite <- app_assoc.
Qed.
End reader_facts.

(** ** The echo handler, step by step *)

(** Unfold the assignments to the world and split on the tests met. *)
Ltac unfold_world :=
  unfold set_status, set_body, set_type, ctx_set, write, observe, sleep,
    constructed, set_response in *.

Ltac crush_world :=
  unfold_world; simpl; repeat (case_match; simpl; try done).

Section handler_facts.
Context `{Platform}.
Variable env : gmap string string.

Lemma override_body_None config :
  override_body config = None
  ↔ overrideResponseBody config = None ∨ overrideResponseBody config = Some "".
Proof.
  unfold override_body.
  destruct (overrideResponseBody config) as [[|c s]|]; simpl;
    intuition congruence.
Qed.

Lemma override_body_Some config content :
  override_body config = Some content
  ↔ overrideResponseBody config = Some content ∧ content ≠ "".
Proof.
  unfold override_body.
  destruct (overrideResponseBody config) as [[|c s]|]; simpl;
    intuition congruence.
Qed.

(** An outcome is its failure and its final world. *)
Lemma outcome_done o : failure o = None → o = Done (final o).
Proof. by destruct o. Qed.

Lemma outcome_failed o error : failure o = Some error → o = Failed error (final o).
Proof. destruct o; simpl; [done|]. by intros [= ->]. Qed.

(** The JSON step leaves everything but the log alone. *)
Lemma json_step_world config ctx body e w :
  let ew := json_step config ctx body (e, w) in
  response ew.2 = response w ∧ histogram ew.2 = histogram w
  ∧ documents ew.2 = documents w ∧ delays ew.2 = delays w.
Proof. unfold json_step. crush_world. Qed.

Lemma json_step_echo config ctx body e w :
  let e' := (json_step config ctx body (e, w)).1 in
  echo_body e' = echo_body e ∧ echo_headers e' = echo_headers e
  ∧ echo_cookies e' = echo_cookies e
  ∧ echo_json e' =
      if req_is ctx "application/json"
      then match JSON_parse body with
           | Some value => Some value
           | None => echo_json e
           end
      else echo_json e.
Proof. unfold json_step. repeat case_match; simpl; done. Qed.


(** The JWT step throws what the decoder throws, and nothing else. *)
Lemma jwt_step_thrown config ctx e :
  match jwt_error config ctx with
  | Some error => jwt_step config ctx e = Thrown error
  | None => ∃ e', jwt_step config ctx e = Returned e'
  end.
Proof.
  unfold jwt_error, jwt_step. cbv zeta.
  destruct (jwt_header config) as [name|]; [|by eexists].
  destruct (JS.truthy (get ctx name)); [|by eexists].
  destruct (decode _); [by eexists|done].
Qed.

Lemma jwt_step_echo config ctx e e' :
  jwt_step config ctx e = Returned e' →
  echo_body e' = echo_body e ∧ echo_headers e' = echo_headers e
  ∧ echo_cookies e' = echo_cookies e ∧ echo_json e' = echo_json e.
Proof.
  unfold jwt_step. cbv zeta. repeat case_match; intros [= <-]; simpl; done.
Qed.

Lemma with_env_echo config e :
  let e' := with_env env config e in
  echo_body e' = echo_body e ∧ echo_headers e' = echo_headers e
  ∧ echo_cookies e' = echo_cookies e ∧ echo_json e' = echo_json e.
Proof. unfold with_env. repeat case_match; simpl; done. Qed.

Lemma with_clientCertificate_echo ctx e :
  let e' := with_clientCertificate ctx e in
  echo_body e' = echo_body e ∧ echo_headers e' = echo_headers e
  ∧ echo_cookies e' = echo_cookies e ∧ echo_json e' = echo_json e.
Proof. unfold with_clientCertificate. repeat case_match; simpl; done. Qed.

(** Whether the echo object gets finished is for the JWT step to say. *)
Lemma build_thrown config ctx body w :
  match jwt_error config ctx with
  | Some error => (build env config ctx body w).1 = Thrown error
  | None => ∃ echo, (build env config ctx body w).1 = Returned echo
  end.
Proof. unfold build. cbv zeta. simpl. apply jwt_step_thrown. Qed.

(** What the finished echo object holds in the fields the statements
    below are about. *)
Lemma build_echo config ctx body w echo :
  (build env config ctx body w).1 = Returned echo →
  echo_body echo = body
  ∧ echo_headers echo =
      (if preserveHeaderCase config then rebuildHeaders (req_rawHeaders ctx)
       else HString <$> req_headers ctx)
  ∧ echo_cookies echo = parseCookies (Some (get ctx "cookie"))
  ∧ echo_json echo =
      if req_is ctx "application/json" then JSON_parse body else None.
Proof.
  unfold build. cbv zeta. simpl.
  set (e0 := literal config ctx body).
  set (e1 := with_clientCertificate ctx e0).
  set (e2 := with_env env config e1).
  intros (Hb4 & Hh4 & Hc4 & Hj4)%jwt_step_echo.
  destruct (with_clientCertificate_echo ctx e0) as (Hb1 & Hh1 & Hc1 & Hj1).
  destruct (with_env_echo config e1) as (Hb2 & Hh2 & Hc2 & Hj2).
  destruct (json_step_echo config ctx body e2 w) as (Hb3 & Hh3 & Hc3 & Hj3).
  cbv zeta in *. fold e1 e2 in Hb2, Hh2, Hc2, Hj2, Hb1, Hh1, Hc1, Hj1.
  rewrite Hb4, Hh4, Hc4, Hj4, Hb3, Hh3, Hc3, Hj3.
  rewrite Hb2, Hh2, Hc2, Hj2, Hb1, Hh1, Hc1, Hj1.
  repeat split; try done.
  destruct (req_is ctx "application/json"); [|done].
  by destruct (JSON_parse body).
Qed.

Lemma build_world config ctx body w :
  let w' := (build env config ctx body w).2 in
  response w' = response w ∧ histogram w' = histogram w
  ∧ documents w' = documents w ∧ delays w' = delays w.
Proof. unfold build. cbv zeta. simpl. apply json_step_world. Qed.

Lemma status_override_world ctx w :
  let w' := status_override ctx w in
  res_body (response w') = res_body (response w)
  ∧ res_type (response w') = res_type (response w)
  ∧ res_set (response w') = res_set (response w)
  ∧ log w' = log w ∧ histogram w' = histogram w
  ∧ documents w' = documents w ∧ delays w' = delays w.
Proof. unfold status_override. crush_world. Qed.

(** The status step reads the request and the status, nothing else. *)
Lemma status_override_response ctx w1 w2 :
  response w1 = response w2 →
  res_status (response (status_override ctx w1))
  = res_status (response (status_override ctx w2)).
Proof.
  intros Hr. unfold status_override.
  destruct (headerOrQuery ctx "x-set-response-status-code") as [v|]; [|by rewrite Hr].
  destruct (JS.parseInt (qToString v)) as [code|]; [|by rewrite Hr].
  destruct ((100 <=? code) && (code <? 600)); [done|by rewrite Hr].
Qed.

Lemma delay_world ctx w :
  let w' := delay ctx w in
  response w' = response w ∧ log w' = log w ∧ histogram w' = histogram w
  ∧ documents w' = documents w.
Proof. unfold delay. crush_world. Qed.

Lemma send_world config ctx body echo w :
  let w' := send config ctx body echo w in
  res_status (response w') = res_status (response w)
  ∧ res_body (response w') = Some (sent config ctx body echo)
  ∧ res_set (response w') = res_set (response w)
  ∧ log w' = log w ∧ histogram w' = histogram w
  ∧ documents w' = documents w ∧ delays w' = delays w.
Proof. unfold send, sent. crush_world. Qed.

(** What the steps past the JWT step leave behind. *)
Lemma respond_world config ctx body echo w :
  let w' := respond config ctx body echo w in
  res_status (response w') = res_status (response (status_override ctx w))
  ∧ res_body (response w') = Some (sent config ctx body echo)
  ∧ res_set (response w') = res_set (response w)
  ∧ histogram w' = histogram w
  ∧ documents w' = documents w.
Proof.
  cbv zeta. unfold respond. cbv zeta.
  set (w2 := status_override ctx w).
  set (w3 := delay ctx w2).
  set (w4 := send config ctx body echo w3).
  destruct (status_override_world ctx w) as (Sb & St & Ss & Sl & Sh & Sd & _).
  destruct (delay_world ctx w2) as (Dr & Dl & Dh & Dd).
  destruct (send_world config ctx body echo w3) as (Es & Eb & Ese & El & Eh & Ed & _).
  cbv zeta in *. fold w2 in Sb, St, Ss, Sl, Sh, Sd. fold w3 in Dr, Dl, Dh, Dd.
  fold w4 in Es, Eb, Ese, El, Eh, Ed.
  assert (∀ w5, (w5 = w4 ∨ ∃ t, w5 = set_type t w4) →
    ∀ w6, (w6 = w5 ∨ w6 = write (logger config) (LogRequest echo) w5) →
    res_status (response w6) = res_status (response w2)
    ∧ res_body (response w6) = Some (sent config ctx body echo)
    ∧ res_set (response w6) = res_set (response w)
    ∧ histogram w6 = histogram w
    ∧ documents w6 = documents w) as Hrest.
  { intros w5 H5 w6 H6.
    assert (res_status (response w5) = res_status (response w4)
            ∧ res_body (response w5) = res_body (response w4)
            ∧ res_set (response w5) = res_set (response w4)
            ∧ histogram w5 = histogram w4 ∧ documents w5 = documents w4)
      as (A1 & A2 & A3 & A4 & A5).
    { destruct H5 as [->|[t ->]]; [done|]. unfold_world. done. }
    assert (response w6 = response w5 ∧ histogram w6 = histogram w5
            ∧ documents w6 = documents w5) as (B1 & B2 & B3).
    { destruct H6 as [->| ->]; [done|]. unfold_world.
      destruct (enabled (logger config)); done. }
    rewrite B1, B2, B3, A1, A2, A3, A4, A5, Es, Eb, Ese, Eh, Ed.
    by rewrite Dr, Dh, Dd, Ss, Sh, Sd. }
  destruct (headerOrQuery ctx "x-set-response-content-type") as [t|]; simpl;
    destruct (logged (logIgnorePath config) (req_path ctx)).
  - apply (Hrest (set_type t w4)); [right; by exists t | by right].
  - apply (Hrest (set_type t w4)); [right; by exists t | by left].
  - apply (Hrest w4); [by left | by right].
  - apply (Hrest w4); [by left | by left].
Qed.

(** What [reflect] leaves behind: the response with the document built,
    or, when the JWT step throws, the world as it was but for the log. *)
Lemma reflect_world config ctx body w :
  let o := reflect env config ctx body w in
  let w' := final o in
  failure o = jwt_error config ctx
  ∧ (jwt_error config ctx = None →
     ∃ echo, (build env config ctx body w).1 = Returned echo
       ∧ res_status (response w') = res_status (response (status_override ctx w))
       ∧ res_body (response w') = Some (sent config ctx body echo)
       ∧ res_set (response w') = res_set (response w)
       ∧ histogram w' = histogram w
       ∧ documents w' = (documents w ++ [echo])%list)
  ∧ (jwt_error config ctx ≠ None →
     response w' = response w ∧ histogram w' = histogram w
     ∧ documents w' = documents w ∧ delays w' = delays w).
Proof.
  cbv zeta. unfold reflect. cbv zeta.
  pose proof (build_thrown config ctx body w) as Hb.
  destruct (build_world config ctx body w) as (Hr & Hh & Hd & Hdel).
  cbv zeta in *.
  set (w0 := (build env config ctx body w).2) in *.
  destruct (jwt_error config ctx) as [error|].
  - rewrite Hb. simpl. repeat split; done.
  - destruct Hb as [echo ->]. simpl.
    split; [done|]. split; [|done]. intros _. exists echo.
    destruct (respond_world config ctx body echo (constructed echo w0))
      as (-> & -> & -> & -> & ->).
    split; [done|]. split.
    { apply status_override_response. unfold_world. done. }
    unfold_world. simpl. by rewrite Hr, Hh, Hd.
Qed.
End handler_facts.

(** ** The body-size limit *)

Section body_limit.
Context `{Platform}.
Variable env : gmap string string.

(** The reader of a body over the limit, once the stream is drained. *)
Lemma drained_over_limit (s : stream) m :
  MAX_BODY_SIZE env = Some m → 0 < m →
  m < byte_length (stream_data s) →
  Reader.exceeded (drained env s) = true
  ∧ Reader.size (drained env s) = byte_length (stream_data s)
  ∧ ∃ n, (n < length (stream_data s))%nat
      ∧ Reader.chunks (drained env s) = take n (stream_data s)
      ∧ byte_length (take n (stream_data s)) ≤ m
      ∧ m < byte_length (take (S n) (stream_data s)).
Proof.
  intros Hm Hpos Hlen. unfold drained.
  destruct (drain_over env Reader.init (stream_data s))
    as (n & Hn & He & Hc & Hlo & Hhi); simpl.
  - done.
  - rewrite (over_limit_spec env m) by done. apply bool_decide_eq_false. lia.
  - rewrite (over_limit_spec env m) by done. apply bool_decide_eq_true. lia.
  - split; [done|]. split; [by rewrite drain_size|].
    exists n. simpl in *.
    rewrite (over_limit_spec env m) in Hlo, Hhi by done.
    apply bool_decide_eq_false in Hlo. apply bool_decide_eq_true in Hhi.
    repeat split; [done|done|lia|lia].
Qed.


(** C1, as amended.  When no override response body is configured (none,
    or an empty one) and the stream of the request ends after carrying
    more bytes than a positive [MAX_BODY_SIZE]: the reader has kept
    exactly the chunks before the one that crossed the limit, it has
    counted every byte of the stream, [readBody] rejects with the message
    naming the limit, the handler answers 413 with the object
    [{ error: message }], and it constructs no echo document. *)
Theorem echoHandler_body_too_large config ctx w m :
  overrideResponseBody config = None ∨ overrideResponseBody config = Some "" →
  MAX_BODY_SIZE env = Some m → 0 < m →
  stream_ending (body_stream ctx) = End →
  m < byte_length (stream_data (body_stream ctx)) →
  let data := stream_data (body_stream ctx) in
  let reader := drained env (body_stream ctx) in
  let message :=
    "Body exceeds max size of " +:+ JS.numberToString m +:+ " bytes" in
  let w' := final (echoHandler env config ctx w) in
  (∃ n, (n < length data)%nat
     ∧ Reader.chunks reader = take n data
     ∧ byte_length (take n data) ≤ m
     ∧ m < byte_length (take (S n) data))
  ∧ Reader.size reader = byte_length data
  ∧ readBody env ctx = Rejected message
  ∧ res_status (response w') = Some 413
  ∧ res_body (response w') = Some (BodyError message)
  ∧ documents w' = documents w.
Proof.
  intros Hov%override_body_None Hm Hpos Hend Hlen. cbv zeta.
  destruct (drained_over_limit (body_stream ctx) m) as (He & Hs & Hn);
    [done..|].
  assert (readBody env ctx
          = Rejected ("Body exceeds max size of " +:+ JS.numberToString m
                      +:+ " bytes")) as Hread.
  { unfold readBody. rewrite Hend. unfold on_end. by rewrite He, Hm. }
  repeat split; [done|done|done|..];
    unfold echoHandler; by rewrite Hov, Hread.
Qed.
End body_limit.

(** ** What the handler answers *)

Section handler_claims.
Context `{Platform}.
Variable env : gmap string string.

(** The three ways through the handler. *)
Lemma echoHandler_cases config ctx w :
  echoHandler env config ctx w =
    match override_body config with
    | Some content => Done (set_body (BodyString content) w)
    | None =>
        match readBody env ctx with
        | Rejected message =>
            Done (set_body (BodyError message) (set_status 413 w))
        | Resolved body => reflect env config ctx body w
        end
    end.
Proof. reflexivity. Qed.




(** What the override step does to the status, and to nothing else. *)
Lemma status_override_status ctx w :
  let value := headerOrQuery ctx "x-set-response-status-code" in
  (∀ v code, value = Some v → JS.parseInt (qToString v) = Some code →
     100 ≤ code < 600 →
     res_status (response (status_override ctx w)) = Some code)
  ∧ ((¬ ∃ v code, value = Some v ∧ JS.parseInt (qToString v) = Some code
                  ∧ 100 ≤ code < 600) →
     res_status (response (status_override ctx w)) = res_status (response w)).
Proof.
  cbv zeta. unfold status_override. split.
  - intros v code -> -> Hr.
    assert ((100 <=? code) && (code <? 600) = true) as ->
      by (apply andb_true_iff; lia).
    done.
  - intros Hno.
    destruct (headerOrQuery ctx "x-set-response-status-code") as [v|]; [|done].
    destruct (JS.parseInt (qToString v)) as [code|] eqn:Hp; [|done].
    destruct ((100 <=? code) && (code <? 600)) eqn:E; [|done].
    exfalso. apply Hno. exists v, code. apply andb_true_iff in E.
    repeat split; try done; lia.
Qed.


(** C4, as amended.  When [echoBackToClient] is off, the handler assigns
    the empty body [null] to exactly the requests that reach its send
    step: no override response body is configured, [readBody] resolves
    and the JWT step returns.  With a non-empty override the body is the
    override content, when [readBody] rejects it is the error object, and
    when the JWT step throws no body is assigned. *)
Theorem echoHandler_no_echo config ctx w :
  echoBackToClient config = false →
  let w' := final (echoHandler env config ctx w) in
  (∀ content, overrideResponseBody config = Some content → content ≠ "" →
     res_body (response w') = Some (BodyString content))
  ∧ (overrideResponseBody config = None ∨ overrideResponseBody config = Some "" →
     match readBody env ctx with
     | Rejected message => res_body (response w') = Some (BodyError message)
     | Resolved _ =>
         match jwt_error config ctx with
         | None => res_body (response w') = Some BodyNull
         | Some _ => res_body (response w') = res_body (response w)
         end
     end).
Proof.
  intros Hecho. cbv zeta. rewrite echoHandler_cases. split.
  - intros content Hc Hne.
    assert (override_body config = Some content) as ->
      by by apply override_body_Some.
    done.
  - intros ->%override_body_None.
    destruct (readBody env ctx) as [body|message]; [|done].
    destruct (reflect_world env config ctx body w) as (_ & Hd & Ht).
    destruct (jwt_error config ctx) as [error|].
    + destruct Ht as (-> & _); done.
    + destruct (Hd eq_refl) as (echo & _ & _ & -> & _).
      unfold sent. by rewrite Hecho.
Qed.

(** C7, as amended.  For a request that reaches the override step (no
    override response body is configured, [readBody] resolves and the JWT
    step returns), the handler assigns the status [code] when [parseInt]
    reads [code] from the value of [x-set-response-status-code] and
    [100 <= code < 600], and it leaves the status as it was when there is
    no such code; the value is the header when the header is not empty,
    and only otherwise the query parameter of that name.  When the JWT
    step throws, the status is left as it was. *)
Theorem echoHandler_status_override config ctx w body :
  overrideResponseBody config = None ∨ overrideResponseBody config = Some "" →
  readBody env ctx = Resolved body →
  let w' := final (echoHandler env config ctx w) in
  let name := "x-set-response-status-code" in
  let value := headerOrQuery ctx name in
  (∀ v code, value = Some v → JS.parseInt (qToString v) = Some code →
     100 ≤ code < 600 → jwt_error config ctx = None →
     res_status (response w') = Some code)
  ∧ ((¬ ∃ v code, value = Some v ∧ JS.parseInt (qToString v) = Some code
                  ∧ 100 ≤ code < 600) →
     res_status (response w') = res_status (response w))
  ∧ (get ctx name ≠ "" → value = Some (QString (get ctx name)))
  ∧ (get ctx name = "" →
     value = match req_query ctx !! name with
             | Some v => if qTruthy v then Some v else None
             | None => None
             end)
  ∧ (jwt_error config ctx ≠ None →
     res_status (response w') = res_status (response w)).
Proof.
  intros Hov%override_body_None Hread. cbv zeta.
  rewrite echoHandler_cases, Hov, Hread.
  destruct (reflect_world env config ctx body w) as (_ & Hd & Ht).
  destruct (status_override_status ctx w) as [Hyes Hno]. cbv zeta in *.
  split; [|split; [|split; [|split]]].
  - intros v code Hv Hp Hr Hjwt.
    destruct (Hd Hjwt) as (echo & _ & -> & _). by apply (Hyes v code).
  - intros Hnone. destruct (jwt_error config ctx) as [error|].
    + destruct Ht as (-> & _); done.
    + destruct (Hd eq_refl) as (echo & _ & -> & _). by apply Hno.
  - intros Hne. unfold headerOrQuery.
    destruct (get ctx "x-set-response-status-code"); done.
  - intros Heq. unfold headerOrQuery. by rewrite Heq.
  - intros Hjwt. by destruct (Ht Hjwt) as (-> & _).
Qed.
End handler_claims.

(** ** Objects filled by assignment: cookies and rebuilt headers *)

Section objects.
Context `{Platform}.

Lemma last_value_snoc {V} k (ps : list (string * V)) p :
  last_value k (ps ++ [p]) =
    if decide (p.1 = k) then Some p.2 else last_value k ps.
Proof.
  unfold last_value. rewrite filter_app, filter_cons, filter_nil.
  destruct (decide (p.1 = k)).
  - by rewrite last_snoc.
  - by rewrite app_nil_r.
Qed.

(** Assigning the pairs in order: the last value of a key stays, and
    [__proto__] never becomes a key. *)
Lemma assign_all_lookup {V} (ps : list (string * V)) (obj : gmap string V) k :
  foldl (λ o p, JS.setProp p.1 p.2 o) obj ps !! k =
    if decide (k = "__proto__") then obj !! k
    else match last_value k ps with
         | Some v => Some v
         | None => obj !! k
         end.
Proof.
  induction ps as [|p ps IH] using rev_ind.
  - simpl. by destruct (decide (k = "__proto__")).
  - rewrite foldl_snoc, last_value_snoc. unfold JS.setProp at 1.
    destruct (decide (p.1 = "__proto__")) as [Hp|Hp].
    + rewrite IH. destruct (decide (k = "__proto__")) as [Hk|Hk]; [done|].
      destruct (decide (p.1 = k)); [congruence|done].
    + destruct (decide (p.1 = k)) as [<-|Hne].
      * rewrite lookup_insert_eq. by destruct (decide (p.1 = "__proto__")).
      * by rewrite lookup_insert_ne, IH.
Qed.

Lemma rebuild_assign : ∀ rawHeaders headers,
  rebuild headers rawHeaders
  = foldl (λ o p, JS.setProp p.1 p.2 o) headers (raw_pairs rawHeaders).
Proof.
  fix IH 1. intros [|name [|value rest]] headers; simpl; [done|done|].
  apply IH.
Qed.

Lemma rebuildHeaders_lookup rawHeaders name :
  rebuildHeaders rawHeaders !! name =
    if decide (name = "__proto__") then None
    else last_value name (raw_pairs rawHeaders).
Proof.
  unfold rebuildHeaders. rewrite rebuild_assign, assign_all_lookup.
  rewrite lookup_empty. by repeat case_match.
Qed.

Lemma cookie_pairs_assign pairs cookies :
  foldl cookie_pair cookies pairs
  = foldl (λ o p, JS.setProp p.1 p.2 o) cookies (omap cookie_entry pairs).
Proof.
  revert cookies. induction pairs as [|pair pairs IH]; intros cookies; [done|].
  simpl. rewrite IH. unfold cookie_pair, cookie_entry.
  by destruct (0 <? JS.indexOf "=" pair).
Qed.

(** C6, as amended.  The [cookies] mapping of a Cookie header is obtained
    by splitting on [;] and splitting each pair at its first [=], the key
    and the value trimmed.  A pair contributes nothing exactly when it has
    no [=] or starts with its first [=]; of the pairs with one key the
    last gives the value; the key [__proto__] is never stored.  The header
    [session=abc123; theme=dark] yields [session] and [theme] with
    [abc123] and [dark]. *)
Theorem parseCookies_entries (header : string) :
  (∀ key, parseCookies (Some header) !! key =
     if decide (key = "__proto__") then None
     else last_value key (omap cookie_entry (JS.split ";" header)))
  ∧ (∀ pair, cookie_entry pair = None ↔ JS.indexOf "=" pair ≤ 0)
  ∧ (∀ pair, 0 < JS.indexOf "=" pair →
       cookie_entry pair =
         Some (JS.trim (JS.slice pair 0 (JS.indexOf "=" pair)),
               JS.trim (JS.sliceFrom pair (JS.indexOf "=" pair + 1))))
  ∧ parseCookies (Some "session=abc123; theme=dark")
    = {[ "session" := "abc123"; "theme" := "dark" ]}.
Proof.
  split; [|split; [|split]].
  - intros key. unfold parseCookies. destruct header as [|c rest].
    + simpl. rewrite lookup_empty. by case_match.
    + cbn [JS.truthy]. rewrite cookie_pairs_assign, assign_all_lookup.
      rewrite lookup_empty. by repeat case_match.
  - intros pair. unfold cookie_entry.
    destruct (0 <? JS.indexOf "=" pair) eqn:E.
    + apply Z.ltb_lt in E. split; [done|lia].
    + apply Z.ltb_ge in E. done.
  - intros pair Hidx. unfold cookie_entry.
    apply Z.ltb_lt in Hidx. by rewrite Hidx.
  - vm_compute. reflexivity.
Qed.
End objects.


(** ** The headers of the echo document *)

Section headers.
Context `{Platform}.
Variable env : gmap string string.

(** A document is constructed only past [readBody], by [build]. *)
Lemma echoHandler_constructed config ctx w echo :
  documents (final (echoHandler env config ctx w))
  = (documents w ++ [echo])%list →
  ∃ body, readBody env ctx = Resolved body
    ∧ override_body config = None
    ∧ (build env config ctx body w).1 = Returned echo.
Proof.
  assert (documents w ≠ (documents w ++ [echo])%list) as Hlen.
  { intros Hd. apply (f_equal length) in Hd.
    rewrite length_app in Hd. simpl in Hd. lia. }
  rewrite echoHandler_cases.
  destruct (override_body config) as [content|]; [done|].
  destruct (readBody env ctx) as [body|message]; [|done].
  destruct (reflect_world env config ctx body w) as (_ & Hd & Ht).
  destruct (jwt_error config ctx) as [error|].
  - destruct Ht as (_ & _ & -> & _); done.
  - destruct (Hd eq_refl) as (echo' & Hb & _ & _ & _ & _ & ->).
    intros [_ [= ->]]%app_inj_tail. by exists body.
Qed.

(** C5, as amended.  In the document the handler constructs, [headers] is
    [rebuildHeaders] of the raw name/value sequence when header-case
    preservation is on and the lower-case header mapping of the request
    when it is off.  [rebuildHeaders] keeps each name as it is written, so
    names that differ in case are different keys; it holds one value for
    a name, that of the last pair with this name in the sequence, and
    nothing for the name [__proto__]. *)
Theorem echoHandler_headers config ctx w echo :
  documents (final (echoHandler env config ctx w))
  = (documents w ++ [echo])%list →
  (preserveHeaderCase config = true →
     echo_headers echo = rebuildHeaders (req_rawHeaders ctx))
  ∧ (preserveHeaderCase config = false →
       echo_headers echo = HString <$> req_headers ctx)
  ∧ (∀ name, rebuildHeaders (req_rawHeaders ctx) !! name =
       if decide (name = "__proto__") then None
       else last_value name (raw_pairs (req_rawHeaders ctx))).
Proof.
  intros (body & _ & _ & Hb)%echoHandler_constructed.
  destruct (build_echo env config ctx body w echo Hb) as (_ & -> & _).
  split; [by intros ->|]. split; [by intros ->|].
  intros name. apply rebuildHeaders_lookup.
Qed.
End headers.

(** ** The middleware stack *)

Section app_facts.
Context `{Koa}.
Variable env : gmap string string.
Variable fs : gmap string string.


(** The CORS middleware before it looks at the method. *)
Lemma cors_cases origin ctx next w :
  ∃ w0, cors env origin ctx next w =
          (if decide (req_method ctx = "OPTIONS") then Done (set_status 204 w0)
           else next w0)
    ∧ res_status (response w0) = res_status (response w)
    ∧ res_body (response w0) = res_body (response w)
    ∧ res_set (response w0) = (res_set (response w) ++ cors_headers env origin)%list
    ∧ log w0 = log w ∧ histogram w0 = histogram w
    ∧ documents w0 = documents w ∧ delays w0 = delays w.
Proof.
  unfold cors, cors_headers. eexists. split; [reflexivity|].
  destruct (CORS_METHODS env), (CORS_HEADERS env), (CORS_CREDENTIALS env);
    unfold_world; simpl; rewrite <- ?app_assoc; done.
Qed.

(** The access-log middleware passes on what the rest of the stack leaves,
    and rejects when the rest of the stack does. *)
Lemma accessLog_frame ctx next w :
  failure (accessLog env ctx next w) = failure (next w)
  ∧ response (final (accessLog env ctx next w)) = response (final (next w))
  ∧ histogram (final (accessLog env ctx next w)) = histogram (final (next w))
  ∧ documents (final (accessLog env ctx next w)) = documents (final (next w)).
Proof.
  unfold accessLog. destruct (next w) as [w1|error w1]; simpl; [|done].
  destruct (logged (LOG_IGNORE_PATH env) (req_path ctx)); [|done].
  unfold write. by destruct (enabled (app_logger env)).
Qed.

Lemma env_truthy_Some name value :
  env !! name = Some value → value ≠ "" → env_truthy env name = Some value.
Proof. unfold env_truthy. intros -> Hne. by destruct value. Qed.

(** C8.  When [CORS_ALLOW_ORIGIN] is set, a request with the method
    [OPTIONS] gets the status 204 and the configured CORS headers, its
    body is not assigned, and nothing downstream runs: no line is logged,
    no observation is recorded, no echo document is constructed, no
    delay is awaited. *)
Theorem cors_preflight ctx w origin :
  env !! "CORS_ALLOW_ORIGIN" = Some origin → origin ≠ "" →
  req_method ctx = "OPTIONS" →
  let w' := final (serve env fs ctx w) in
  res_status (response w') = Some 204
  ∧ res_body (response w') = res_body (response w)
  ∧ res_set (response w') = (res_set (response w) ++ cors_headers env origin)%list
  ∧ log w' = log w
  ∧ histogram w' = histogram w
  ∧ documents w' = documents w
  ∧ delays w' = delays w.
Proof.
  intros Horigin Hne Hmethod. cbv zeta. unfold serve, createApp, CORS_ORIGIN.
  rewrite (env_truthy_Some _ _ Horigin Hne). simpl.
  match goal with
  | |- context [cors env origin ctx ?next w] =>
      destruct (cors_cases origin ctx next w)
        as (w0 & -> & Hs & Hb & Hset & Hl & Hh & Hd & Hdel)
  end.
  rewrite decide_True by done.
  unfold_world. simpl. by rewrite Hb, Hset, Hl, Hh, Hd, Hdel.
Qed.





(** C10.  When [OVERRIDE_RESPONSE_BODY_FILE_PATH] names a file that exists
    and is empty, the configuration holds the empty string as override
    response body and the handler does not take the bypass: it reads the
    body, answers 413 when the read fails, and otherwise goes on to
    construct the echo document with the body it read, which it does
    whenever the JWT step returns.  When that step throws, the handler
    rejects without a body assigned: the override content is not the
    answer then either. *)
Theorem empty_override_file ctx w file :
  env !! "OVERRIDE_RESPONSE_BODY_FILE_PATH" = Some file → file ≠ "" →
  fs !! file = Some "" →
  let config := echoConfig env fs in
  let o := echoHandler env config ctx w in
  let w' := final o in
  overrideResponseBody config = Some ""
  ∧ o = match readBody env ctx with
        | Rejected message =>
            Done (set_body (BodyError message) (set_status 413 w))
        | Resolved body => reflect env config ctx body w
        end
  ∧ (∀ body, readBody env ctx = Resolved body →
       jwt_error config ctx = None →
       ∃ echo, failure o = None
         ∧ documents w' = (documents w ++ [echo])%list
         ∧ echo_body echo = body
         ∧ res_body (response w') = Some (sent config ctx body echo))
  ∧ (∀ body, readBody env ctx = Resolved body →
       jwt_error config ctx ≠ None →
       failure o = jwt_error config ctx
       ∧ res_body (response w') = res_body (response w)
       ∧ documents w' = documents w).
Proof.
  intros Hfile Hne Hfs. cbv zeta.
  assert (overrideResponseBody (echoConfig env fs) = Some "") as Hov.
  { simpl. unfold overrideBody, OVERRIDE_FILE. rewrite Hfile.
    by destruct file. }
  split; [done|].
  rewrite echoHandler_cases.
  assert (override_body (echoConfig env fs) = None) as ->
    by (apply override_body_None; by right).
  split; [done|]. split.
  - intros body -> Hjwt.
    destruct (reflect_world env (echoConfig env fs) ctx body w)
      as (Hf & Hd & _).
    destruct (Hd Hjwt) as (echo & Hbuild & _ & Hbody & _ & _ & Hdocs).
    destruct (build_echo env (echoConfig env fs) ctx body w echo Hbuild)
      as (Hb & _).
    exists echo. split; [by rewrite Hf|]. done.
  - intros body -> Hjwt.
    destruct (reflect_world env (echoConfig env fs) ctx body w)
      as (Hf & _ & Ht).
    destruct (Ht Hjwt) as (-> & _ & -> & _). done.
Qed.
End app_facts.

(** * The model at work: the statements above on concrete requests, and the
    requests that separate the code from the specification *)

Section runs.
#[local] Existing Instance Demo.platform.
#[local] Existing Instance Demo.koa.

(** An upload of six bytes in three chunks. *)
Let upload : Request :=
  Demo.request "POST" "/upload" [] [] ["abc"; "de"; "f"].

Let limit4 : gmap string string := {[ "MAX_BODY_SIZE" := "4" ]}.

(** C1, a run: six bytes against a limit of four. *)
Lemma echoHandler_body_too_large_run :
  let w' := final (echoHandler limit4 Demo.config upload Demo.world) in
  MAX_BODY_SIZE limit4 = Some 4
  ∧ 4 < byte_length (stream_data (body_stream upload))
  ∧ Reader.chunks (drained limit4 (body_stream upload))
    = [list_byte_of_string "abc"]
  ∧ Reader.size (drained limit4 (body_stream upload)) = 6
  ∧ res_status (response w') = Some 413
  ∧ res_body (response w')
    = Some (BodyError "Body exceeds max size of 4 bytes")
  ∧ documents w' = [].
Proof.
  cbv zeta.
  destruct (echoHandler_body_too_large limit4 Demo.config upload Demo.world 4)
    as (_ & Hsize & _ & Hstatus & Hbody & Hdocs).
  - left. reflexivity.
  - vm_compute. reflexivity.
  - lia.
  - vm_compute. reflexivity.
  - vm_compute. reflexivity.
  - split; [vm_compute; reflexivity|].
    split; [vm_compute; reflexivity|].
    split; [vm_compute; reflexivity|].
    split; [exact Hsize|].
    split; [exact Hstatus|].
    split; [exact Hbody|exact Hdocs].
Defined.

(** C1 as stated fails: with an override response body configured the
    body is not read, and the oversized request is answered with the
    override content and no status. *)
Lemma oversized_body_behind_override :
  let w' := final (echoHandler limit4 (Demo.static "ok") upload Demo.world) in
  MAX_BODY_SIZE limit4 = Some 4
  ∧ byte_length (stream_data (body_stream upload)) = 6
  ∧ stream_ending (body_stream upload) = End
  ∧ res_status (response w') = None
  ∧ res_body (response w') = Some (BodyString "ok").
Proof. vm_compute. repeat split; reflexivity. Qed.








(** C4, a run: echo-back off, nothing else configured. *)
Lemma echoHandler_no_echo_run :
  let w' := final (echoHandler ∅ (Demo.silent None) upload Demo.world) in
  echoBackToClient (Demo.silent None) = false
  ∧ readBody ∅ upload = Resolved "abcdef"
  ∧ res_body (response w') = Some BodyNull.
Proof.
  cbv zeta. split; [reflexivity|]. split; [vm_compute; reflexivity|].
  destruct (echoHandler_no_echo ∅ (Demo.silent None) upload Demo.world eq_refl)
    as (_ & Hsend).
  exact (Hsend (or_introl eq_refl)).
Defined.

(** C4 as stated fails: with echo-back off the override bypass still
    answers with the override content, and an oversized body is still
    answered with the error object. *)
Lemma echo_back_off_body_not_empty :
  echoBackToClient (Demo.silent (Some "ok")) = false
  ∧ res_body (response (final
      (echoHandler ∅ (Demo.silent (Some "ok")) upload Demo.world)))
    = Some (BodyString "ok")
  ∧ res_body (response (final
      (echoHandler limit4 (Demo.silent None) upload Demo.world)))
    = Some (BodyError "Body exceeds max size of 4 bytes").
Proof. vm_compute. repeat split; reflexivity. Qed.

(** A request with one header name sent twice, and once more in another
    case. *)
Let tagged : Request :=
  Demo.request "GET" "/" [("X-Tag", "a"); ("X-Tag", "b"); ("x-tag", "c")] [] [].

(** C5, a run. *)
Lemma echoHandler_headers_run :
  let w' := final (echoHandler ∅ Demo.cased tagged Demo.world) in
  req_rawHeaders tagged = ["X-Tag"; "a"; "X-Tag"; "b"; "x-tag"; "c"]
  ∧ ∃ echo, documents w' = [echo]
      ∧ echo_headers echo = rebuildHeaders (req_rawHeaders tagged)
      ∧ echo_headers echo !! "X-Tag" = Some (HString "b")
      ∧ echo_headers echo !! "x-tag" = Some (HString "c").
Proof.
  cbv zeta. split; [reflexivity|].
  eexists. split; [vm_compute; reflexivity|].
  destruct (echoHandler_headers ∅ Demo.cased tagged Demo.world _ eq_refl)
    as (Hon & _ & _).
  split; [exact (Hon eq_refl)|].
  split; vm_compute; reflexivity.
Defined.

(** C5 as stated fails: of two raw pairs with one name only the last is in
    the mapping. *)
Lemma rebuildHeaders_collapses_duplicates :
  let w' := final (echoHandler ∅ Demo.cased tagged Demo.world) in
  raw_pairs (req_rawHeaders tagged)
  = [("X-Tag", HString "a"); ("X-Tag", HString "b"); ("x-tag", HString "c")]
  ∧ rebuildHeaders (req_rawHeaders tagged)
    = {[ "X-Tag" := HString "b"; "x-tag" := HString "c" ]}
  ∧ echo_headers <$> documents w'
    = [ {[ "X-Tag" := HString "b"; "x-tag" := HString "c" ]} ].
Proof. vm_compute. repeat split; reflexivity. Qed.

(** C6 as stated fails: the pair [=abc] has a [=] and is dropped. *)
Lemma parseCookies_drops_leading_equals :
  JS.split ";" "=abc; theme=dark" = ["=abc"; " theme=dark"]
  ∧ JS.indexOf "=" "=abc" = 0
  ∧ parseCookies (Some "=abc; theme=dark") = {[ "theme" := "dark" ]}.
Proof. vm_compute. repeat split; reflexivity. Qed.

(** A request that asks for the status 418 by header, and for 201 by query
    parameter. *)
Let teapot : Request :=
  Demo.request "POST" "/upload" [("x-set-response-status-code", "418")]
    [("x-set-response-status-code", QString "201")] ["abc"; "de"; "f"].

(** C7, a run: the header wins over the query parameter. *)
Lemma echoHandler_status_override_run :
  let w' := final (echoHandler ∅ Demo.config teapot Demo.world) in
  readBody ∅ teapot = Resolved "abcdef"
  ∧ headerOrQuery teapot "x-set-response-status-code" = Some (QString "418")
  ∧ JS.parseInt "418" = Some 418
  ∧ res_status (response w') = Some 418.
Proof.
  cbv zeta.
  assert (readBody ∅ teapot = Resolved "abcdef") as Hread
    by (vm_compute; reflexivity).
  destruct (echoHandler_status_override ∅ Demo.config teapot Demo.world
              "abcdef" (or_introl eq_refl) Hread)
    as (Hyes & _ & _ & _ & _).
  split; [exact Hread|]. split; [vm_compute; reflexivity|].
  split; [reflexivity|].
  apply (Hyes (QString "418") 418);
    [vm_compute; reflexivity|reflexivity|lia|reflexivity].
Defined.

(** C7 as stated fails: the value is a valid status code, and the status is
    not assigned behind the override response body, and is 413 for a body
    over the limit. *)
Lemma status_override_not_reached :
  headerOrQuery teapot "x-set-response-status-code" = Some (QString "418")
  ∧ JS.parseInt "418" = Some 418
  ∧ res_status (response (final
      (echoHandler ∅ (Demo.static "ok") teapot Demo.world))) = None
  ∧ res_status (response (final
      (echoHandler limit4 Demo.config teapot Demo.world))) = Some 413.
Proof. vm_compute. repeat split; reflexivity. Qed.

(** C8, a run: a preflight with an origin and methods configured, request
    logs on and metrics on. *)
Lemma cors_preflight_run :
  let env : gmap string string :=
    {[ "CORS_ALLOW_ORIGIN" := "*"; "CORS_ALLOW_METHODS" := "GET,POST";
       "PROMETHEUS_ENABLED" := "true" ]} in
  let ctx := Demo.request "OPTIONS" "/upload" [] [] [] in
  let w' := final (serve env ∅ ctx Demo.world) in
  res_status (response w') = Some 204
  ∧ res_body (response w') = None
  ∧ res_set (response w')
    = [("Access-Control-Allow-Origin", "*");
       ("Access-Control-Allow-Methods", "GET,POST")]
  ∧ log w' = [] ∧ histogram w' = [] ∧ documents w' = [].
Proof.
  cbv zeta.
  destruct (cors_preflight
              {[ "CORS_ALLOW_ORIGIN" := "*"; "CORS_ALLOW_METHODS" := "GET,POST";
                 "PROMETHEUS_ENABLED" := "true" ]} ∅
              (Demo.request "OPTIONS" "/upload" [] [] []) Demo.world "*")
    as (Hs & Hb & Hset & Hl & Hh & Hd & _).
  - vm_compute. reflexivity.
  - discriminate.
  - reflexivity.
  - split; [exact Hs|]. split; [exact Hb|]. split; [exact Hset|].
    split; [exact Hl|]. split; [exact Hh|exact Hd].
Defined.

Let metered : gmap string string :=
  {[ "PROMETHEUS_ENABLED" := "true"; "PROMETHEUS_WITH_PATH" := "true" ]}.



(** C10, a run: the override file exists and is empty. *)
Lemma empty_override_file_run :
  let env : gmap string string :=
    {[ "OVERRIDE_RESPONSE_BODY_FILE_PATH" := "/etc/hello/body" ]} in
  let fs : gmap string string := {[ "/etc/hello/body" := "" ]} in
  let w' := final (echoHandler env (echoConfig env fs) upload Demo.world) in
  overrideResponseBody (echoConfig env fs) = Some ""
  ∧ ∃ echo, documents w' = [echo] ∧ echo_body echo = "abcdef"
      ∧ res_body (response w') = Some (BodyEcho echo).
Proof.
  cbv zeta.
  destruct (empty_override_file
              {[ "OVERRIDE_RESPONSE_BODY_FILE_PATH" := "/etc/hello/body" ]}
              {[ "/etc/hello/body" := "" ]} upload Demo.world "/etc/hello/body")
    as (Hov & _ & Hdoc & _).
  - vm_compute. reflexivity.
  - discriminate.
  - vm_compute. reflexivity.
  - split; [exact Hov|].
    destruct (Hdoc "abcdef") as (echo & _ & Hd & Hb & Hbody).
    + vm_compute. reflexivity.
    + reflexivity.
    + exists echo. split; [exact Hd|]. split; [exact Hb|exact Hbody].
Defined.
End runs.

(** * More of the code *)

(** ** Strings, character by character *)


Section string_facts.

Lemma chars_app s t : chars (s +:+ t) = (chars s ++ chars t)%list.
Proof. induction s as [|c s IH]; simpl; [done|]. by rewrite IH. Qed.

Lemma chars_inj s t : chars s = chars t → s = t.
Proof.
  intros Heq. rewrite <- (string_of_list_ascii_of_string s),
    <- (string_of_list_ascii_of_string t). unfold chars in Heq. by rewrite Heq.
Qed.

Lemma chars_rev_app s t :
  chars (String.rev_app s t) = (reverse (chars s) ++ chars t)%list.
Proof.
  revert t. induction s as [|c s IH]; intros t; simpl; [done|].
  rewrite IH, reverse_cons. simpl. by rewrite <- app_assoc.
Qed.

Lemma chars_rev s : chars (String.rev s) = reverse (chars s).
Proof. unfold String.rev. rewrite chars_rev_app. simpl. by rewrite app_nil_r. Qed.

Lemma indexOf_bounds c s : -1 ≤ JS.indexOf c s < JS.len s.
Proof.
  unfold JS.len. induction s as [|d s IH]; simpl; [lia|].
  destruct (Ascii.eqb d c); [lia|].
  destruct (JS.indexOf c s <? 0) eqn:E; lia.
Qed.

Lemma indexOf_absent c s : JS.indexOf c s = -1 ↔ c ∉ chars s.
Proof.
  induction s as [|d s IH]; simpl.
  - split; [intros _; apply not_elem_of_nil|done].
  - rewrite not_elem_of_cons. destruct (Ascii.eqb_spec d c) as [->|Hne].
    + split; [lia|]. intros [? _]. done.
    + pose proof (indexOf_bounds c s).
      destruct (JS.indexOf c s <? 0) eqn:E.
      * apply Z.ltb_lt in E. split; [|done]. intros _. split; [done|].
        apply IH. lia.
      * apply Z.ltb_ge in E. split; [lia|]. intros [_ Hn%IH]. lia.
Qed.

(** The characters before the first occurrence. *)
Lemma indexOf_prefix c s :
  0 ≤ JS.indexOf c s →
  c ∉ chars (substring 0 (Z.to_nat (JS.indexOf c s)) s).
Proof.
  induction s as [|d s IH]; simpl; [lia|].
  destruct (Ascii.eqb_spec d c) as [->|Hne]; simpl.
  - intros _. apply not_elem_of_nil.
  - pose proof (indexOf_bounds c s).
    destruct (JS.indexOf c s <? 0) eqn:E; [lia|].
    apply Z.ltb_ge in E. intros _.
    replace (Z.to_nat (JS.indexOf c s + 1)) with (S (Z.to_nat (JS.indexOf c s)))
      by lia.
    simpl. rewrite not_elem_of_cons. split; [done|]. by apply IH.
Qed.

Lemma chars_substring a n s x : x ∈ chars (substring a n s) → x ∈ chars s.
Proof.
  revert a n. induction s as [|d s IH]; intros a n.
  - destruct a, n; simpl; done.
  - destruct a as [|a]; simpl.
    + destruct n as [|n]; simpl; [by intros ?%elem_of_nil|].
      rewrite !elem_of_cons. intros [->|Hx]; [by left|]. right. by eapply IH.
    + rewrite elem_of_cons. intros Hx. right. by eapply IH.
Qed.

Lemma chars_slice s a b x : x ∈ chars (JS.slice s a b) → x ∈ chars s.
Proof. unfold JS.slice. apply chars_substring. Qed.

Lemma chars_trimStart s x : x ∈ chars (JS.trimStart s) → x ∈ chars s.
Proof.
  induction s as [|d s IH]; simpl; [done|].
  destruct (JS.isWhiteSpace d); [|done].
  intros Hx. apply elem_of_cons. right. by apply IH.
Qed.

Lemma chars_trim s x : x ∈ chars (JS.trim s) → x ∈ chars s.
Proof.
  unfold JS.trim, JS.trimEnd. rewrite chars_rev, elem_of_reverse.
  intros Hx%chars_trimStart.
  rewrite chars_rev, elem_of_reverse in Hx.
  by apply chars_trimStart.
Qed.

(** No piece of a split holds the separator, and every piece is made of
    characters of the string. *)
Lemma split_pieces sep s :
  Forall (λ piece, (sep ∉ chars piece) ∧ (∀ x, x ∈ chars piece → x ∈ chars s))
    (JS.split sep s).
Proof.
  induction s as [|c s IH]; simpl.
  - constructor; [|constructor]. split; [apply not_elem_of_nil|done].
  - destruct (Ascii.eqb_spec c sep) as [->|Hne].
    + constructor.
      * split; [apply not_elem_of_nil|]. by intros x ?%elem_of_nil.
      * eapply Forall_impl; [exact IH|]. simpl. intros p [Hs Hx].
        split; [done|]. intros x Hp. apply elem_of_cons. right. auto.
    + destruct (JS.split sep s) as [|h t] eqn:E.
      * constructor; [|constructor]. simpl. split.
        -- rewrite not_elem_of_cons. split; [done|apply not_elem_of_nil].
        -- intros x [->|?%elem_of_nil]%elem_of_cons; [|done].
           apply elem_of_cons. by left.
      * apply Forall_cons in IH as [[Hs Hx] IH]. constructor.
        -- simpl. split.
           ++ rewrite not_elem_of_cons. split; [done|done].
           ++ intros x [->|Hh]%elem_of_cons; apply elem_of_cons;
                [by left|right; auto].
        -- eapply Forall_impl; [exact IH|]. simpl. intros p [Hs' Hx'].
           split; [done|]. intros x Hp. apply elem_of_cons. right. auto.
Qed.

Lemma split_nonempty sep s : JS.split sep s ≠ [].
Proof.
  destruct s as [|c s]; simpl; [done|].
  destruct (Ascii.eqb c sep); [done|]. by destruct (JS.split sep s).
Qed.

(** A string without the separator is its own single piece. *)
Lemma split_absent sep s : sep ∉ chars s → JS.split sep s = [s].
Proof.
  induction s as [|c s IH]; simpl; [done|].
  rewrite not_elem_of_cons. intros [Hne Hs].
  destruct (Ascii.eqb_spec c sep) as [->|_]; [done|]. by rewrite IH.
Qed.

Lemma trimStart_clean s : clean_head (JS.trimStart s).
Proof.
  induction s as [|c s IH]; simpl; [done|].
  destruct (JS.isWhiteSpace c) eqn:E; [done|]. simpl. done.
Qed.

Lemma trimStart_fixed s : clean_head s → JS.trimStart s = s.
Proof. destruct s as [|c s]; simpl; [done|]. by intros ->. Qed.

Lemma rev_snoc s c : String.rev (s +:+ String c "") = String c (String.rev s).
Proof.
  apply chars_inj. simpl. fold (chars (String.rev s)).
  rewrite !chars_rev, chars_app. simpl. by rewrite reverse_snoc.
Qed.

Lemma rev_cons c s : String.rev (String c s) = String.rev s +:+ String c "".
Proof.
  apply chars_inj. rewrite chars_app, !chars_rev. simpl.
  fold (chars s). by rewrite reverse_cons.
Qed.

Lemma rev_involutive s : String.rev (String.rev s) = s.
Proof. apply chars_inj. by rewrite !chars_rev, reverse_involutive. Qed.

Lemma trimStart_snoc s c :
  JS.isWhiteSpace c = false →
  ∃ s', JS.trimStart (s +:+ String c "") = s' +:+ String c "".
Proof.
  intros Hc. induction s as [|d s IH]; simpl.
  - rewrite Hc. by exists "".
  - destruct (JS.isWhiteSpace d); [done|]. by exists (String d s).
Qed.

Lemma trimEnd_clean s : clean_head s → clean_head (JS.trimEnd s).
Proof.
  destruct s as [|c s]; [done|]. simpl. intros Hc.
  unfold JS.trimEnd. rewrite rev_cons.
  destruct (trimStart_snoc (String.rev s) c Hc) as [s' ->].
  rewrite rev_snoc. done.
Qed.

Lemma trimEnd_idem s : JS.trimEnd (JS.trimEnd s) = JS.trimEnd s.
Proof.
  unfold JS.trimEnd. rewrite rev_involutive.
  f_equal. apply trimStart_fixed, trimStart_clean.
Qed.

(** Trimming twice is trimming once. *)
Lemma trim_idem s : JS.trim (JS.trim s) = JS.trim s.
Proof.
  unfold JS.trim at 1.
  rewrite (trimStart_fixed (JS.trim s)).
  - unfold JS.trim. apply trimEnd_idem.
  - unfold JS.trim. apply trimEnd_clean, trimStart_clean.
Qed.
End string_facts.

(** ** Cookies and headers, entry by entry *)

Section entries.
Context `{Platform}.

Lemma last_value_cons {V} k (p : string * V) ps :
  last_value k (p :: ps) =
    match last_value k ps with
    | Some v => Some v
    | None => if decide (p.1 = k) then Some p.2 else None
    end.
Proof.
  unfold last_value. rewrite filter_cons.
  destruct (decide (p.1 = k)).
  - destruct (filter (λ p0, p0.1 = k) ps) as [|q qs] eqn:E; [done|].
    rewrite last_cons. destruct (last (q :: qs)) eqn:E2; [done|].
    by apply last_None in E2.
  - by destruct (last (filter (λ p0, p0.1 = k) ps)).
Qed.

Lemma last_value_elem {V} k (ps : list (string * V)) v :
  last_value k ps = Some v → (k, v) ∈ ps.
Proof.
  induction ps as [|p ps IH]; [done|].
  rewrite last_value_cons.
  destruct (last_value k ps) as [v'|].
  - intros [= ->]. apply elem_of_cons. right. by apply IH.
  - destruct (decide (p.1 = k)) as [<-|]; [|done].
    intros [= <-]. apply elem_of_cons. left. by destruct p.
Qed.

Lemma last_value_list_to_map {V} k (ps : list (string * V)) :
  NoDup ps.*1 → last_value k ps = (list_to_map ps : gmap string V) !! k.
Proof.
  induction ps as [|p ps IH]; [done|].
  rewrite fmap_cons, NoDup_cons. intros [Hp Hnd].
  rewrite last_value_cons, IH by done. simpl.
  destruct (decide (p.1 = k)) as [<-|Hne].
  - rewrite lookup_insert_eq.
    by rewrite (not_elem_of_list_to_map_1 ps p.1 Hp).
  - rewrite lookup_insert_ne by done. by destruct (list_to_map ps !! k).
Qed.

Lemma slice_prefix s i :
  0 ≤ i < JS.len s → JS.slice s 0 i = substring 0 (Z.to_nat i) s.
Proof.
  intros Hi. unfold JS.slice, JS.clampIndex. simpl.
  destruct (i <? 0) eqn:E; [apply Z.ltb_lt in E; lia|].
  rewrite (Z.min_l 0), (Z.min_l i) by (unfold JS.len in *; lia).
  by rewrite Z.sub_0_r.
Qed.

(** X4.  Every cookie comes from a pair of the header, and is clean: key and
    value are trimmed, the key holds no [=], neither holds a [;]. *)
Theorem parseCookies_hygiene (header key value : string) :
  parseCookies (Some header) !! key = Some value →
  (∃ pair, pair ∈ JS.split ";" header ∧ cookie_entry pair = Some (key, value))
  ∧ JS.trim key = key ∧ JS.trim value = value
  ∧ JS.indexOf "=" key = -1
  ∧ JS.indexOf ";" key = -1 ∧ JS.indexOf ";" value = -1.
Proof.
  intros Hlook.
  assert (∃ pair, pair ∈ JS.split ";" header
                  ∧ cookie_entry pair = Some (key, value)) as (pair & Hin & He).
  { unfold parseCookies in Hlook. destruct (JS.truthy header); [|done].
    rewrite cookie_pairs_assign, assign_all_lookup, lookup_empty in Hlook.
    destruct (decide (key = "__proto__")); [done|].
    destruct (last_value key (omap cookie_entry (JS.split ";" header)))
      as [v|] eqn:E; [|done].
    injection Hlook as ->.
    apply last_value_elem, list_elem_of_omap in E. exact E. }
  split; [by exists pair|].
  pose proof (split_pieces ";" header) as Hpieces.
  rewrite Forall_forall in Hpieces. destruct (Hpieces pair Hin) as [Hsemi _].
  unfold cookie_entry in He.
  destruct (0 <? JS.indexOf "=" pair) eqn:Hidx; [|done].
  apply Z.ltb_lt in Hidx. injection He as <- <-.
  pose proof (indexOf_bounds "=" pair) as Hb.
  rewrite !trim_idem. split; [done|]. split; [done|].
  split; [|split]; apply indexOf_absent; intros Hc%chars_trim.
  - rewrite slice_prefix in Hc by lia.
    by apply (indexOf_prefix "=" pair); [lia|].
  - by apply chars_slice in Hc.
  - by apply chars_slice in Hc.
Qed.

(** X5.  When no name repeats and none is [__proto__], the rebuilt headers are
    exactly the raw pairs. *)
Theorem rebuildHeaders_exact (rawHeaders : list string) :
  NoDup (raw_pairs rawHeaders).*1 →
  "__proto__" ∉ (raw_pairs rawHeaders).*1 →
  rebuildHeaders rawHeaders = list_to_map (raw_pairs rawHeaders)
  ∧ size (rebuildHeaders rawHeaders) = length (raw_pairs rawHeaders)
  ∧ ∀ name value,
      rebuildHeaders rawHeaders !! name = Some value
      ↔ (name, value) ∈ raw_pairs rawHeaders.
Proof.
  intros Hnd Hproto.
  assert (rebuildHeaders rawHeaders = list_to_map (raw_pairs rawHeaders)) as ->.
  { apply map_eq. intros name. rewrite rebuildHeaders_lookup.
    destruct (decide (name = "__proto__")) as [->|_].
    - symmetry. by apply not_elem_of_list_to_map_1.
    - by apply last_value_list_to_map. }
  split; [done|]. split.
  - by apply map_size_list_to_map.
  - intros name value. symmetry. by apply elem_of_list_to_map.
Qed.

End entries.

(** ** More on the body reader *)

Section reader_more.
Context `{Platform}.
Variable env : gmap string string.

Lemma over_limit_zero : over_limit env 0 = false.
Proof.
  unfold over_limit. destruct (MAX_BODY_SIZE env) as [m|]; [|done].
  apply andb_false_iff. lia.
Qed.

(** On a stream that ends, the total number of bytes alone decides how
    [readBody] settles. *)
Lemma readBody_settles ctx :
  stream_ending (body_stream ctx) = End →
  readBody env ctx =
    if over_limit env (byte_length (stream_data (body_stream ctx)))
    then Rejected ("Body exceeds max size of "
                   +:+ from_option JS.numberToString "NaN" (MAX_BODY_SIZE env)
                   +:+ " bytes")
    else Resolved (utf8 (concat (stream_data (body_stream ctx)))).
Proof.
  intros Hend. unfold readBody. rewrite Hend. unfold on_end, drained.
  destruct (over_limit env (byte_length (stream_data (body_stream ctx))))
    eqn:Hover.
  - destruct (drain_over env Reader.init (stream_data (body_stream ctx)))
      as (n & _ & -> & _); [done|apply over_limit_zero|done|done].
  - destruct (drain_within env Reader.init (stream_data (body_stream ctx)))
      as [-> ->]; [done|done|done].
Qed.

(** X1.  Under a positive limit, [readBody] on a stream that ends is one
    comparison of the total number of bytes with the limit: up to the
    limit, the limit included, it resolves to the text of all the bytes;
    above it, it rejects with the message that names the limit. *)
Theorem readBody_by_total ctx m :
  MAX_BODY_SIZE env = Some m → 0 < m →
  stream_ending (body_stream ctx) = End →
  readBody env ctx =
    if bool_decide (byte_length (stream_data (body_stream ctx)) ≤ m)
    then Resolved (utf8 (concat (stream_data (body_stream ctx))))
    else Rejected ("Body exceeds max size of " +:+ JS.numberToString m
                   +:+ " bytes").
Proof.
  intros Hm Hpos Hend. rewrite readBody_settles by done.
  rewrite (over_limit_spec env m) by done. rewrite Hm. simpl.
  repeat case_bool_decide; first [done|lia].
Qed.

(** X2.  Two requests whose streams end with the same bytes are read alike,
    however the bytes are cut into chunks. *)
Theorem readBody_chunking ctx1 ctx2 :
  stream_ending (body_stream ctx1) = End →
  stream_ending (body_stream ctx2) = End →
  concat (stream_data (body_stream ctx1)) = concat (stream_data (body_stream ctx2)) →
  readBody env ctx1 = readBody env ctx2.
Proof.
  intros H1 H2 Hc. rewrite !readBody_settles by done.
  unfold byte_length. by rewrite Hc.
Qed.

(** X3.  A limit that is zero, negative or not a number is no limit. *)
Theorem readBody_unlimited ctx :
  (∀ m, MAX_BODY_SIZE env = Some m → m ≤ 0) →
  stream_ending (body_stream ctx) = End →
  readBody env ctx = Resolved (utf8 (concat (stream_data (body_stream ctx)))).
Proof.
  intros Hm Hend. rewrite readBody_settles by done.
  unfold over_limit. destruct (MAX_BODY_SIZE env) as [m|] eqn:E; [|done].
  specialize (Hm m eq_refl).
  assert ((0 <? m) = false) as -> by lia. done.
Qed.
End reader_more.

(** ** More on the echo handler *)

Section handler_more.
Context `{Platform}.
Variable env : gmap string string.

(** The warning of the JSON step, when the logger writes. *)
Lemma build_log config ctx body w :
  log (build env config ctx body w).2 =
    (log w ++
     if enabled (logger config) && req_is ctx "application/json"
     then match JSON_parse body with
          | Some _ => []
          | None =>
              [LogWarn "Invalid JSON body with Content-Type: application/json"]
          end
     else [])%list.
Proof.
  unfold build, json_step, write. cbv zeta. simpl.
  destruct (enabled (logger config)), (req_is ctx "application/json"),
    (JSON_parse body); simpl; by rewrite ?app_nil_r.
Qed.

Lemma delay_delays ctx w :
  delays (delay ctx w) =
    (delays w ++
     match JS.parseInt (from_option qToString "0"
                          (headerOrQuery ctx "x-set-response-delay-ms")) with
     | Some ms => if 0 <? ms then [ms] else []
     | None => []
     end)%list
  ∧ res_type (response (delay ctx w)) = res_type (response w).
Proof.
  unfold delay. cbv zeta.
  destruct (JS.parseInt _) as [ms|]; [|by rewrite app_nil_r].
  destruct (0 <? ms); [done|by rewrite app_nil_r].
Qed.

Lemma send_type config ctx body echo w :
  res_type (response (send config ctx body echo w)) = res_type (response w).
Proof. unfold send. crush_world. Qed.

(** What the steps past the JWT step do to the content type, the delays
    and the log. *)
Lemma respond_effects config ctx body echo w :
  let w' := respond config ctx body echo w in
  res_type (response w') =
    from_option Some (res_type (response w))
      (headerOrQuery ctx "x-set-response-content-type")
  ∧ delays w' =
      (delays w ++
       match JS.parseInt (from_option qToString "0"
                            (headerOrQuery ctx "x-set-response-delay-ms")) with
       | Some ms => if 0 <? ms then [ms] else []
       | None => []
       end)%list
  ∧ log w' =
      (log w
       ++ (if enabled (logger config)
              && logged (logIgnorePath config) (req_path ctx)
           then [LogRequest echo] else []))%list.
Proof.
  cbv zeta. unfold respond. cbv zeta.
  set (w2 := status_override ctx w).
  set (w3 := delay ctx w2).
  set (w4 := send config ctx body echo w3).
  destruct (status_override_world ctx w) as (_ & St & _ & Sl & _ & _ & Sdel).
  destruct (delay_world ctx w2) as (_ & Dl & _ & _).
  destruct (delay_delays ctx w2) as (Ddel & Dt).
  destruct (send_world config ctx body echo w3) as (_ & _ & _ & El & _ & _ & Edel).
  pose proof (send_type config ctx body echo w3) as Et.
  cbv zeta in *. fold w2 in St, Sl, Sdel. fold w3 in Dl, Ddel, Dt.
  fold w4 in El, Edel, Et.
  assert (res_type (response w4) = res_type (response w)
          ∧ log w4 = log w ∧ delays w4 = (delays w ++
       match JS.parseInt (from_option qToString "0"
                            (headerOrQuery ctx "x-set-response-delay-ms")) with
       | Some ms => if 0 <? ms then [ms] else []
       | None => []
       end)%list) as (T4 & L4 & D4).
  { by rewrite Et, Dt, St, El, Dl, Sl, Edel, Ddel, Sdel. }
  set (w5 := from_option (λ t, set_type t w4) w4
               (headerOrQuery ctx "x-set-response-content-type")).
  assert (res_type (response w5)
          = from_option Some (res_type (response w))
              (headerOrQuery ctx "x-set-response-content-type")
          ∧ log w5 = log w ∧ delays w5 = delays w4) as (T5 & L5 & D5).
  { subst w5.
    destruct (headerOrQuery ctx "x-set-response-content-type"); simpl;
      unfold_world; simpl; done. }
  rewrite <- D4, <- D5.
  destruct (logged (logIgnorePath config) (req_path ctx)).
  - unfold write. destruct (enabled (logger config)); simpl.
    + by rewrite L5.
    + rewrite L5. by rewrite app_nil_r.
  - rewrite andb_false_r, app_nil_r. done.
Qed.

(** What [reflect] does to the content type, the delays and the log. *)
Lemma reflect_effects config ctx body w :
  let w' := final (reflect env config ctx body w) in
  let warning :=
    if enabled (logger config) && req_is ctx "application/json"
    then match JSON_parse body with
         | Some _ => []
         | None =>
             [LogWarn "Invalid JSON body with Content-Type: application/json"]
         end
    else [] in
  (jwt_error config ctx = None →
   ∃ echo, (build env config ctx body w).1 = Returned echo
     ∧ res_type (response w') =
         from_option Some (res_type (response w))
           (headerOrQuery ctx "x-set-response-content-type")
     ∧ delays w' =
         (delays w ++
          match JS.parseInt (from_option qToString "0"
                               (headerOrQuery ctx "x-set-response-delay-ms")) with
          | Some ms => if 0 <? ms then [ms] else []
          | None => []
          end)%list
     ∧ log w' =
         (log w ++ warning
          ++ (if enabled (logger config)
                 && logged (logIgnorePath config) (req_path ctx)
              then [LogRequest echo] else []))%list)
  ∧ (jwt_error config ctx ≠ None →
     res_type (response w') = res_type (response w)
     ∧ delays w' = delays w
     ∧ log w' = (log w ++ warning)%list).
Proof.
  cbv zeta. unfold reflect. cbv zeta.
  pose proof (build_thrown env config ctx body w) as Hb.
  pose proof (build_log config ctx body w) as Hlog.
  destruct (build_world env config ctx body w) as (Hr & _ & _ & Hdel).
  cbv zeta in *.
  set (w0 := (build env config ctx body w).2) in *.
  destruct (jwt_error config ctx) as [error|].
  - rewrite Hb. simpl. split; [done|]. intros _. by rewrite Hr, Hdel, Hlog.
  - destruct Hb as [echo ->]. simpl. split; [|done]. intros _. exists echo.
    destruct (respond_effects config ctx body echo (constructed echo w0))
      as (-> & -> & ->).
    unfold_world. simpl. rewrite Hr, Hdel, Hlog.
    by rewrite <- app_assoc.
Qed.

(** The handler past the bypass and the read. *)
Lemma echoHandler_reflect config ctx w body :
  overrideResponseBody config = None ∨ overrideResponseBody config = Some "" →
  readBody env ctx = Resolved body →
  echoHandler env config ctx w = reflect env config ctx body w.
Proof.
  intros Hov%override_body_None Hread.
  by rewrite echoHandler_cases, Hov, Hread.
Qed.

(** No step after the object literal touches them. *)
Lemma build_request_fields config ctx body w echo :
  (build env config ctx body w).1 = Returned echo →
  request_fields echo = request_fields (literal config ctx body).
Proof.
  unfold build. cbv zeta. simpl.
  set (e0 := literal config ctx body).
  assert (request_fields (with_clientCertificate ctx e0) = request_fields e0)
    as H1.
  { unfold with_clientCertificate. by destruct (req_socket ctx) as [|? []]. }
  set (e1 := with_clientCertificate ctx e0) in *.
  assert (request_fields (with_env env config e1) = request_fields e1) as H2.
  { unfold with_env. by destruct (includeEnvVars config). }
  set (e2 := with_env env config e1) in *.
  assert (request_fields (json_step config ctx body (e2, w)).1
          = request_fields e2) as H3.
  { unfold json_step.
    by destruct (req_is ctx "application/json"), (JSON_parse body). }
  set (e3 := (json_step config ctx body (e2, w)).1) in *.
  intros H4. rewrite <- H1, <- H2, <- H3. revert H4.
  unfold jwt_step. cbv zeta. repeat case_match; by intros [= <-].
Qed.

(** X6.  The document the handler constructs reflects the request: the fields
    read from the context are in it as they are, whatever is attached to the
    document afterwards. *)
Theorem echoHandler_reflects_request config ctx w echo :
  documents (final (echoHandler env config ctx w))
  = (documents w ++ [echo])%list →
  echo_path echo = req_path ctx
  ∧ echo_method echo = req_method ctx
  ∧ echo_query echo = req_query ctx
  ∧ echo_fresh echo = req_fresh ctx
  ∧ echo_hostname echo = req_hostname ctx
  ∧ echo_ip echo = req_ip ctx
  ∧ echo_ips echo = req_ips ctx
  ∧ echo_protocol echo = req_protocol ctx
  ∧ echo_subdomains echo = req_subdomains ctx
  ∧ echo_os_hostname echo = hostname
  ∧ echo_cookies echo = parseCookies (Some (get ctx "cookie")).
Proof.
  intros (body & _ & _ & Hb)%echoHandler_constructed.
  pose proof (build_request_fields config ctx body w echo Hb) as Hf.
  unfold request_fields in Hf.
  injection Hf as ? ? ? ? ? ? ? ? ? ? ?. repeat split; assumption.
Qed.

(** What the JWT step assigns when it returns. *)
Lemma jwt_step_attached config ctx e e' :
  jwt_step config ctx e = Returned e' →
  echo_clientCertificate e' = echo_clientCertificate e
  ∧ echo_env e' = echo_env e
  ∧ match jwt_header config with
    | Some name =>
        ∃ value, echo_jwt e' = Some value
          ∧ if JS.truthy (get ctx name)
            then decode (List.last (JS.split " " (get ctx name)) "")
                 = Returned value
            else value = None
    | None => echo_jwt e' = echo_jwt e
    end.
Proof.
  unfold jwt_step. cbv zeta.
  destruct (jwt_header config) as [name|]; [|by intros [= <-]].
  destruct (JS.truthy (get ctx name)).
  - destruct (decode _) as [value|]; [|done]. intros [= <-]. simpl.
    repeat split; by exists value.
  - intros [= <-]. simpl. repeat split; by exists None.
Qed.

Lemma build_attached_fields config ctx body w echo :
  (build env config ctx body w).1 = Returned echo →
  echo_clientCertificate echo =
    match req_socket ctx with
    | TLSSocket _ (Some cert) => Some cert
    | _ => None
    end
  ∧ echo_env echo = (if includeEnvVars config then Some env else None)
  ∧ match jwt_header config with
    | Some name =>
        ∃ value, echo_jwt echo = Some value
          ∧ if JS.truthy (get ctx name)
            then decode (List.last (JS.split " " (get ctx name)) "")
                 = Returned value
            else value = None
    | None => echo_jwt echo = None
    end.
Proof.
  unfold build. cbv zeta. simpl.
  set (e0 := literal config ctx body).
  assert (attached_fields (with_clientCertificate ctx e0) =
            (match req_socket ctx with
             | TLSSocket _ (Some cert) => Some cert
             | _ => None
             end, None, None)) as H1.
  { unfold with_clientCertificate. by destruct (req_socket ctx) as [|? []]. }
  set (e1 := with_clientCertificate ctx e0) in *.
  assert (attached_fields (with_env env config e1) =
            (echo_clientCertificate e1,
             if includeEnvVars config then Some env else echo_env e1,
             echo_jwt e1)) as H2.
  { unfold with_env. by destruct (includeEnvVars config). }
  set (e2 := with_env env config e1) in *.
  assert (attached_fields (json_step config ctx body (e2, w)).1
          = attached_fields e2) as H3.
  { unfold json_step.
    by destruct (req_is ctx "application/json"), (JSON_parse body). }
  set (e3 := (json_step config ctx body (e2, w)).1) in *.
  intros (-> & -> & H4)%jwt_step_attached.
  unfold attached_fields in H1, H2, H3.
  injection H3 as -> -> H3. injection H2 as -> -> H2.
  injection H1 as -> -> H1.
  split; [done|]. split; [by destruct (includeEnvVars config)|].
  destruct (jwt_header config); [done|]. by rewrite H4, H3, H2, H1.
Qed.

(** X7.  The optional fields of the document are attached exactly when
    their feature is on: the environment only with [includeEnvVars], the
    client certificate only on a TLS socket that presented one, [jwt] only
    with a JWT header name configured. *)
Theorem echoHandler_optional_fields config ctx w echo :
  documents (final (echoHandler env config ctx w))
  = (documents w ++ [echo])%list →
  echo_env echo = (if includeEnvVars config then Some env else None)
  ∧ echo_clientCertificate echo =
      match req_socket ctx with
      | TLSSocket _ (Some cert) => Some cert
      | _ => None
      end
  ∧ (jwtHeader config = None ∨ jwtHeader config = Some "" →
     echo_jwt echo = None)
  ∧ (∀ name, jwtHeader config = Some name → name ≠ "" →
     ∃ value, echo_jwt echo = Some value).
Proof.
  intros (body & _ & _ & Hb)%echoHandler_constructed.
  destruct (build_attached_fields config ctx body w echo Hb) as (-> & -> & Hj).
  split; [done|]. split; [done|]. unfold jwt_header in Hj. split.
  - intros [E|E]; by rewrite E in Hj.
  - intros name E Hne. rewrite E in Hj. destruct name; [done|]. simpl in Hj.
    destruct Hj as (value & -> & _). by exists value.
Qed.

(** Pieces of a string that holds the separator: those of what follows an
    occurrence come last. *)
Lemma split_app_sep sep p t :
  ∃ l, l ≠ [] ∧ JS.split sep (p +:+ String sep t) = (l ++ JS.split sep t)%list.
Proof.
  induction p as [|c p (l & Hl & IH)]; simpl.
  - rewrite Ascii.eqb_refl. by exists [""].
  - rewrite IH. destruct (Ascii.eqb c sep).
    + by exists ("" :: l).
    + destruct l as [|h l]; [done|]. by exists (String c h :: l).
Qed.

Lemma last_split_after sep p t :
  sep ∉ chars t →
  List.last (JS.split sep (p +:+ String sep t)) "" = t.
Proof.
  intros Ht. destruct (split_app_sep sep p t) as (l & _ & ->).
  rewrite (split_absent sep t Ht). apply List.last_last.
Qed.

(** X8.  The JWT step: without the header the field is [null]; a header without
    a space is decoded whole; of a header with a scheme, a space and a token
    the token alone is decoded.  The field holds what the decoder
    returned. *)
Theorem echoHandler_jwt config ctx w echo name :
  documents (final (echoHandler env config ctx w))
  = (documents w ++ [echo])%list →
  jwtHeader config = Some name → name ≠ "" →
  (get ctx name = "" → echo_jwt echo = Some None)
  ∧ (get ctx name ≠ "" → JS.indexOf " " (get ctx name) = -1 →
     ∃ value, decode (get ctx name) = Returned value
       ∧ echo_jwt echo = Some value)
  ∧ (∀ scheme token, get ctx name = scheme +:+ " " +:+ token →
     JS.indexOf " " token = -1 →
     ∃ value, decode token = Returned value ∧ echo_jwt echo = Some value).
Proof.
  intros (body & _ & _ & Hb)%echoHandler_constructed Hname Hne.
  destruct (build_attached_fields config ctx body w echo Hb) as (_ & _ & Hj).
  unfold jwt_header in Hj. rewrite Hname in Hj.
  destruct name as [|c name]; [done|]. cbn [JS.truthy] in Hj.
  destruct Hj as (value & Hecho & Hj).
  split; [|split].
  - intros E. rewrite E in Hj. simpl in Hj. by rewrite Hecho, Hj.
  - intros Hv Hsp%indexOf_absent.
    destruct (get ctx (String c name)) as [|d v] eqn:E; [done|].
    cbn [JS.truthy] in Hj. rewrite (split_absent " " _ Hsp) in Hj.
    by exists value.
  - intros scheme token Hget Hsp%indexOf_absent.
    change (scheme +:+ " " +:+ token) with (scheme +:+ String " " token)
      in Hget.
    rewrite Hget in Hj.
    assert (JS.truthy (scheme +:+ String " " token) = true) as Ht
      by by destruct scheme.
    rewrite Ht, (last_split_after " " scheme token Hsp) in Hj.
    by exists value.
Qed.

(** X9.  The three bodies the send step chooses among, for a request that
    is echoed: the raw body in body-only mode, the document otherwise, and
    [null] when echo-back is off.  The send step is reached when the JWT
    step returns; when that step throws no body is assigned. *)
Theorem echoHandler_send config ctx w body :
  overrideResponseBody config = None ∨ overrideResponseBody config = Some "" →
  readBody env ctx = Resolved body →
  let w' := final (echoHandler env config ctx w) in
  let only := req_query ctx !! "response_body_only" in
  (jwt_error config ctx = None →
     (echoBackToClient config = true → only = Some (QString "true") →
        res_body (response w') = Some (BodyString body))
     ∧ (echoBackToClient config = true → only ≠ Some (QString "true") →
        ∃ echo, documents w' = (documents w ++ [echo])%list
          ∧ res_body (response w') = Some (BodyEcho echo))
     ∧ (echoBackToClient config = false →
        res_body (response w') = Some BodyNull))
  ∧ (jwt_error config ctx ≠ None →
     res_body (response w') = res_body (response w)).
Proof.
  intros Hov Hread. cbv zeta. rewrite (echoHandler_reflect _ _ _ body) by done.
  destruct (reflect_world env config ctx body w) as (_ & Hd & Ht).
  split.
  - intros Hjwt. destruct (Hd Hjwt) as (echo & _ & _ & -> & _ & _ & ->).
    unfold sent. repeat split.
    + intros -> Hq. simpl. by rewrite decide_True.
    + intros -> Hq. simpl. rewrite decide_False by done. by exists echo.
    + intros ->. done.
  - intros Hjwt. by destruct (Ht Hjwt) as (-> & _).
Qed.

(** X10.  The content type of a request that is echoed is the value of
    [x-set-response-content-type], the header before the query parameter,
    and is left alone without one.  The assignment is reached when the JWT
    step returns; when that step throws the content type is left alone. *)
Theorem echoHandler_content_type config ctx w body :
  overrideResponseBody config = None ∨ overrideResponseBody config = Some "" →
  readBody env ctx = Resolved body →
  let w' := final (echoHandler env config ctx w) in
  let value := headerOrQuery ctx "x-set-response-content-type" in
  (∀ t, value = Some t → jwt_error config ctx = None →
     res_type (response w') = Some t)
  ∧ (value = None → res_type (response w') = res_type (response w))
  ∧ (jwt_error config ctx ≠ None →
     res_type (response w') = res_type (response w)).
Proof.
  intros Hov Hread. cbv zeta. rewrite (echoHandler_reflect _ _ _ body) by done.
  destruct (reflect_effects config ctx body w) as (Hd & Ht). cbv zeta in *.
  split; [|split].
  - intros t Hv Hjwt. destruct (Hd Hjwt) as (echo & _ & -> & _).
    by rewrite Hv.
  - intros Hv. destruct (jwt_error config ctx) as [error|].
    + destruct Ht as (-> & _); done.
    + destruct (Hd eq_refl) as (echo & _ & -> & _). by rewrite Hv.
  - intros Hjwt. by destruct (Ht Hjwt) as (-> & _).
Qed.

(** X11.  A request that is echoed waits once, for the number of
    milliseconds [parseInt] reads from [x-set-response-delay-ms], when that
    number is positive, and does not wait otherwise.  The wait is reached
    when the JWT step returns; when that step throws there is no wait. *)
Theorem echoHandler_delay config ctx w body :
  overrideResponseBody config = None ∨ overrideResponseBody config = Some "" →
  readBody env ctx = Resolved body →
  let w' := final (echoHandler env config ctx w) in
  let delayMs :=
    JS.parseInt (from_option qToString "0"
                   (headerOrQuery ctx "x-set-response-delay-ms")) in
  (∀ ms, delayMs = Some ms → 0 < ms → jwt_error config ctx = None →
     delays w' = (delays w ++ [ms])%list)
  ∧ ((∀ ms, delayMs = Some ms → ms ≤ 0) → delays w' = delays w)
  ∧ (jwt_error config ctx ≠ None → delays w' = delays w).
Proof.
  intros Hov Hread. cbv zeta. rewrite (echoHandler_reflect _ _ _ body) by done.
  destruct (reflect_effects config ctx body w) as (Hd & Ht). cbv zeta in *.
  split; [|split].
  - intros ms Hms Hpos Hjwt. destruct (Hd Hjwt) as (echo & _ & _ & -> & _).
    rewrite Hms. by assert ((0 <? ms) = true) as -> by lia.
  - intros Hno. destruct (jwt_error config ctx) as [error|].
    + destruct Ht as (_ & -> & _); done.
    + destruct (Hd eq_refl) as (echo & _ & _ & -> & _).
      destruct (JS.parseInt _) as [ms|]; [|by rewrite app_nil_r].
      specialize (Hno ms eq_refl). assert ((0 <? ms) = false) as -> by lia.
      by rewrite app_nil_r.
  - intros Hjwt. by destruct (Ht Hjwt) as (_ & -> & _).
Qed.

End handler_more.

(** ** More on the middleware stack *)

Section app_more.
Context `{Koa}.
Variable env : gmap string string.
Variable fs : gmap string string.

(** The stack of [createApp], layer by layer. *)
Lemma serve_layers ctx w :
  serve env fs ctx w =
    let handler := echoHandler env (echoConfig env fs) ctx in
    let metered :=
      if PROMETHEUS_ENABLED env then prometheus env ctx handler else handler in
    let logging :=
      if DISABLE_REQUEST_LOGS env then metered
      else accessLog env ctx metered in
    match CORS_ORIGIN env with
    | Some origin => cors env origin ctx logging w
    | None => logging w
    end.
Proof.
  unfold serve, createApp, compose.
  destruct (CORS_ORIGIN env), (DISABLE_REQUEST_LOGS env),
    (PROMETHEUS_ENABLED env); reflexivity.
Qed.

(** What the handler writes to the log is never an access line. *)
Lemma echoHandler_log_entries config ctx w :
  ∃ entries,
    log (final (echoHandler env config ctx w)) = (log w ++ entries)%list
    ∧ (enabled (logger config) = false → entries = [])
    ∧ Forall (λ e, ∀ method url status, e ≠ LogAccess method url status) entries.
Proof.
  rewrite echoHandler_cases.
  destruct (override_body config).
  { exists []. by rewrite app_nil_r. }
  destruct (readBody env ctx) as [body|].
  2:{ exists []. by rewrite app_nil_r. }
  destruct (reflect_effects env config ctx body w) as (Hd & Ht).
  cbv zeta in *. destruct (jwt_error config ctx) as [error|].
  - destruct Ht as (_ & _ & ->); [done|].
    eexists. split; [reflexivity|]. split.
    + by intros ->.
    + repeat case_match; repeat constructor; done.
  - destruct (Hd eq_refl) as (echo & _ & _ & _ & ->).
    eexists. split; [reflexivity|]. split.
    + by intros ->.
    + apply Forall_app. split; repeat case_match; repeat constructor; done.
Qed.


Lemma prometheus_log ctx next w :
  log (final (prometheus env ctx next w)) =
    if decide (req_path ctx = PROMETHEUS_PATH env ∧ req_method ctx = "GET")
    then log w else log (final (next w)).
Proof.
  unfold prometheus, metricsEndpoint, metricsMiddleware. cbv zeta.
  case_decide; [by unfold_world|]. by destruct (next w).
Qed.



(** X14.  With [DISABLE_REQUEST_LOGS=true] nothing is ever logged. *)
Theorem serve_logs_disabled ctx w :
  env !! "DISABLE_REQUEST_LOGS" = Some "true" →
  log (final (serve env fs ctx w)) = log w.
Proof.
  intros Hoff. rewrite serve_layers. cbv zeta.
  assert (DISABLE_REQUEST_LOGS env = true) as Hd
    by by apply bool_decide_eq_true_2.
  rewrite Hd.
  assert (∀ w0, log (final (echoHandler env (echoConfig env fs) ctx w0))
                = log w0) as Hh.
  { intros w0.
    destruct (echoHandler_log_entries (echoConfig env fs) ctx w0)
      as (entries & -> & Hnil & _).
    rewrite Hnil; [by rewrite app_nil_r|]. simpl. by rewrite Hd. }
  assert (∀ w0, log (final ((if PROMETHEUS_ENABLED env
                             then prometheus env ctx
                                    (echoHandler env (echoConfig env fs) ctx)
                             else echoHandler env (echoConfig env fs) ctx) w0))
                = log w0) as Hm.
  { intros w0. destruct (PROMETHEUS_ENABLED env); [|done].
    rewrite prometheus_log. by case_decide. }
  destruct (CORS_ORIGIN env) as [origin|]; [|done].
  match goal with
  | |- context [cors env origin ctx ?next w] =>
      destruct (cors_cases env origin ctx next w)
        as (w0 & -> & _ & _ & _ & Hl & _)
  end.
  case_decide; [done|]. by rewrite Hm.
Qed.

(** The access-log middleware adds one line after the rest of the stack
    when the rest of the stack is done, and changes nothing else. *)
Lemma accessLog_world ctx next w :
  DISABLE_REQUEST_LOGS env = false →
  response (final (accessLog env ctx next w)) = response (final (next w))
  ∧ delays (final (accessLog env ctx next w)) = delays (final (next w))
  ∧ log (final (accessLog env ctx next w)) =
      (log (final (next w))
       ++ match failure (next w) with
          | None =>
              if logged (LOG_IGNORE_PATH env) (req_path ctx)
              then [LogAccess (req_method ctx) (req_url ctx)
                      (ctx_status (response (final (next w))))]
              else []
          | Some _ => []
          end)%list.
Proof.
  intros Hd. unfold accessLog, write, app_logger. rewrite Hd.
  destruct (next w) as [w1|error w1]; simpl; [|by rewrite app_nil_r].
  destruct (logged (LOG_IGNORE_PATH env) (req_path ctx)); simpl; [done|].
  by rewrite app_nil_r.
Qed.

Lemma echoHandler_res_set config ctx w :
  res_set (response (final (echoHandler env config ctx w)))
  = res_set (response w).
Proof.
  rewrite echoHandler_cases. destruct (override_body config); [done|].
  destruct (readBody env ctx) as [body|]; [|done].
  destruct (reflect_world env config ctx body w) as (_ & Hd & Ht).
  destruct (jwt_error config ctx) as [error|].
  - destruct Ht as (-> & _); done.
  - by destruct (Hd eq_refl) as (echo & _ & _ & _ & -> & _).
Qed.

(** Past the Prometheus middleware a request that is not a scrape leaves
    what the handler leaves, but for the histogram. *)
Lemma prometheus_frame ctx next w :
  ¬ (req_path ctx = PROMETHEUS_PATH env ∧ req_method ctx = "GET") →
  response (final (prometheus env ctx next w)) = response (final (next w))
  ∧ log (final (prometheus env ctx next w)) = log (final (next w))
  ∧ documents (final (prometheus env ctx next w)) = documents (final (next w))
  ∧ delays (final (prometheus env ctx next w)) = delays (final (next w)).
Proof.
  intros Hno. unfold prometheus. rewrite decide_False by done.
  unfold metricsMiddleware. cbv zeta. by destruct (next w).
Qed.


(** X16.  The response headers of any request: the configured CORS headers, and
    the content type of the registry on a scrape; the handler sets none. *)
Theorem serve_response_headers ctx w :
  res_set (response (final (serve env fs ctx w))) =
    (res_set (response w)
     ++ from_option (cors_headers env) [] (CORS_ORIGIN env)
     ++ if PROMETHEUS_ENABLED env
           && bool_decide (req_path ctx = PROMETHEUS_PATH env
                           ∧ req_method ctx = "GET")
        then [("Content-Type", register_contentType)] else [])%list.
Proof.
  rewrite serve_layers. cbv zeta.
  set (handler := echoHandler env (echoConfig env fs) ctx).
  set (metered := if PROMETHEUS_ENABLED env
                  then prometheus env ctx handler else handler).
  set (logging := if DISABLE_REQUEST_LOGS env then metered
                  else accessLog env ctx metered).
  assert (∀ w0, res_set (response (final (logging w0))) =
            (res_set (response w0)
             ++ if PROMETHEUS_ENABLED env
                   && bool_decide (req_path ctx = PROMETHEUS_PATH env
                                   ∧ req_method ctx = "GET")
                then [("Content-Type", register_contentType)] else [])%list)
    as Hl.
  { intros w0.
    assert (response (final (logging w0)) = response (final (metered w0)))
      as ->.
    { subst logging. destruct (DISABLE_REQUEST_LOGS env); [done|].
      by destruct (accessLog_frame env ctx metered w0) as (_ & -> & _). }
    subst metered. destruct (PROMETHEUS_ENABLED env); simpl.
    - case_bool_decide as Hs.
      + unfold prometheus. rewrite decide_True by done.
        unfold metricsEndpoint. unfold_world. done.
      + destruct (prometheus_frame ctx handler w0 Hs) as (-> & _).
        subst handler. by rewrite echoHandler_res_set, app_nil_r.
    - subst handler. by rewrite echoHandler_res_set, app_nil_r. }
  destruct (CORS_ORIGIN env) as [origin|]; simpl.
  - destruct (cors_cases env origin ctx logging w)
      as (w0 & -> & _ & _ & Hset & _).
    destruct (decide (req_method ctx = "OPTIONS")) as [Hopt|Hopt].
    + unfold_world. simpl. rewrite Hset.
      rewrite bool_decide_eq_false_2, andb_false_r, app_nil_r; [done|].
      intros [_ Hget]. rewrite Hopt in Hget. done.
    + by rewrite Hl, Hset, <- app_assoc.
  - apply Hl.
Qed.

(** A request that is not a preflight passes the CORS middleware with the
    CORS headers set and nothing else changed. *)
Lemma cors_pass origin ctx next w :
  req_method ctx ≠ "OPTIONS" →
  ∃ w0, cors env origin ctx next w = next w0
    ∧ res_status (response w0) = res_status (response w)
    ∧ res_body (response w0) = res_body (response w)
    ∧ res_type (response w0) = res_type (response w)
    ∧ documents w0 = documents w ∧ delays w0 = delays w.
Proof.
  intros Hm. unfold cors. rewrite decide_False by done.
  eexists. split; [reflexivity|].
  destruct (CORS_METHODS env), (CORS_HEADERS env), (CORS_CREDENTIALS env);
    unfold_world; simpl; done.
Qed.

(** X17.  A non-empty override file is the answer to every request that comes to
    the handler: the body is not read, nothing is echoed, and the overrides
    the request asks for are not applied. *)
Theorem serve_override_file ctx w file content :
  env !! "OVERRIDE_RESPONSE_BODY_FILE_PATH" = Some file → file ≠ "" →
  fs !! file = Some content → content ≠ "" →
  CORS_ORIGIN env = None ∨ req_method ctx ≠ "OPTIONS" →
  PROMETHEUS_ENABLED env = false
  ∨ ¬ (req_path ctx = PROMETHEUS_PATH env ∧ req_method ctx = "GET") →
  let w' := final (serve env fs ctx w) in
  res_body (response w') = Some (BodyString content)
  ∧ res_status (response w') = res_status (response w)
  ∧ res_type (response w') = res_type (response w)
  ∧ documents w' = documents w
  ∧ delays w' = delays w.
Proof.
  intros Hfile Hne Hfs Hc Hpass Hscrape. cbv zeta.
  rewrite serve_layers. cbv zeta.
  set (handler := echoHandler env (echoConfig env fs) ctx).
  assert (∀ w0, handler w0 = Done (set_body (BodyString content) w0)) as Hh.
  { intros w0. subst handler. rewrite echoHandler_cases.
    assert (override_body (echoConfig env fs) = Some content) as ->; [|done].
    apply override_body_Some. split; [|done]. simpl.
    unfold overrideBody, OVERRIDE_FILE. rewrite Hfile. by destruct file. }
  set (metered := if PROMETHEUS_ENABLED env
                  then prometheus env ctx handler else handler).
  assert (∀ w0, response (final (metered w0)) = response (final (handler w0))
                ∧ documents (final (metered w0)) = documents (final (handler w0))
                ∧ delays (final (metered w0)) = delays (final (handler w0)))
    as Hm.
  { intros w0. subst metered.
    destruct (PROMETHEUS_ENABLED env); [|done].
    destruct Hscrape as [|Hs]; [done|].
    by destruct (prometheus_frame ctx handler w0 Hs) as (-> & _ & -> & ->). }
  set (logging := if DISABLE_REQUEST_LOGS env then metered
                  else accessLog env ctx metered).
  assert (∀ w0, response (final (logging w0)) = response (final (handler w0))
                ∧ documents (final (logging w0)) = documents (final (handler w0))
                ∧ delays (final (logging w0)) = delays (final (handler w0)))
    as Hl.
  { intros w0. destruct (Hm w0) as (Hr & Hd & Hdel). subst logging.
    destruct (DISABLE_REQUEST_LOGS env) eqn:E; [done|].
    destruct (accessLog_world ctx metered w0 E) as (-> & -> & _).
    destruct (accessLog_frame env ctx metered w0) as (_ & _ & _ & ->).
    done. }
  destruct (CORS_ORIGIN env) as [origin|].
  - destruct Hpass as [|Hmethod]; [done|].
    destruct (cors_pass origin ctx logging w Hmethod)
      as (w0 & -> & Hs & Hb & Ht & Hd & Hdel).
    destruct (Hl w0) as (-> & -> & ->). rewrite Hh. unfold_world. simpl.
    by rewrite Hs, Ht, Hd, Hdel.
  - destruct (Hl w) as (-> & -> & ->). rewrite Hh. unfold_world. done.
Qed.

End app_more.

(** ** The listeners at startup *)

Section index_facts.
Variable env : gmap string string.
Variable fs : gmap string string.

(** X19.  The listeners at startup.  The HTTPS listener exists exactly when the
    key file and the certificate file both exist, and then holds their
    contents.  It asks for client certificates only with [MTLS_ENABLE=true]
    and then never rejects a client for its certificate.  Both listeners
    get the same [maxHeaderSize], which is passed only when
    [MAX_HEADER_SIZE] reads as a number other than 0. *)
Theorem startup_listeners :
  (httpsServer env fs = None
   ↔ fs !! HTTPS_KEY_FILE env = None ∨ fs !! HTTPS_CERT_FILE env = None)
  ∧ (∀ https, httpsServer env fs = Some https →
       let options := listener_options https in
       is_Some (opt_key options) ∧ is_Some (opt_cert options)
       ∧ opt_key options = fs !! HTTPS_KEY_FILE env
       ∧ opt_cert options = fs !! HTTPS_CERT_FILE env
       ∧ (opt_requestCert options = Some true
          ↔ env !! "MTLS_ENABLE" = Some "true")
       ∧ (opt_requestCert options = Some true →
          opt_rejectUnauthorized options = Some false)
       ∧ (env !! "MTLS_ENABLE" ≠ Some "true" →
          opt_requestCert options = None
          ∧ opt_rejectUnauthorized options = None)
       ∧ opt_maxHeaderSize options
         = opt_maxHeaderSize (listener_options (httpServer env)))
  ∧ (∀ size, opt_maxHeaderSize (listener_options (httpServer env)) = Some size ↔
       size ≠ 0
       ∧ ∃ value, env !! "MAX_HEADER_SIZE" = Some value
                  ∧ JS.parseInt value = Some size).
Proof.
  split; [|split].
  - unfold httpsServer, ENABLE_HTTPS.
    destruct (bool_decide_reflect (is_Some (fs !! HTTPS_KEY_FILE env)))
      as [Hk|Hk%eq_None_not_Some],
      (bool_decide_reflect (is_Some (fs !! HTTPS_CERT_FILE env)))
      as [Hc|Hc%eq_None_not_Some]; simpl.
    + split; [done|]. intros [E|E]; rewrite E in *.
      * by apply is_Some_None in Hk.
      * by apply is_Some_None in Hc.
    + split; [by right|done].
    + split; [by left|done].
    + split; [by left|done].
  - intros https. unfold httpsServer, ENABLE_HTTPS.
    destruct (bool_decide (is_Some (fs !! HTTPS_KEY_FILE env))) eqn:Ek; [|done].
    destruct (bool_decide (is_Some (fs !! HTTPS_CERT_FILE env))) eqn:Ec; [|done].
    apply bool_decide_eq_true in Ek, Ec. simpl. intros [= <-]. simpl.
    unfold MTLS_ENABLE. case_bool_decide as Hm; repeat split; try done.
  - intros size. simpl. unfold maxHeaderSize, MAX_HEADER_SIZE, env_truthy.
    destruct (env !! "MAX_HEADER_SIZE") as [value|]; simpl.
    + destruct value as [|c value]; simpl.
      * split; [done|]. by intros (_ & v & [= <-] & ?).
      * destruct (JS.parseInt (String c value)) as [n|] eqn:Ep.
        -- destruct (decide (n = 0)) as [->|Hn].
           ++ split; [done|]. intros (Hne & v & [= <-] & Hv). congruence.
           ++ split.
              ** intros [= <-]. split; [done|]. eauto.
              ** intros (_ & v & [= <-] & Hv). congruence.
        -- split; [done|]. intros (_ & v & [= <-] & Hv). congruence.
    + split; [done|]. by intros (_ & v & ? & _).
Qed.
End index_facts.

(** ** Repeated query parameters *)

Section numbers.
Context `{Platform}.
Variable env : gmap string string.

Lemma parseDigits_stop acc r c t :
  JS.digit c = None →
  JS.parseDigits acc (r +:+ String c t) = JS.parseDigits acc r.
Proof.
  intros Hc. revert acc. induction r as [|d r IH]; intros acc; simpl.
  - by rewrite Hc.
  - destruct (JS.digit d); [apply IH|done].
Qed.

Lemma trimStart_stop s c t :
  JS.isWhiteSpace c = false →
  JS.trimStart (s +:+ String c t) =
    match JS.trimStart s with
    | EmptyString => String c t
    | String d r => String d r +:+ String c t
    end.
Proof.
  intros Hc. induction s as [|d s IH]; simpl.
  - by rewrite Hc.
  - destruct (JS.isWhiteSpace d); [exact IH|done].
Qed.

(** [parseInt] reads nothing past a comma. *)
Lemma parseInt_comma s t : JS.parseInt (s +:+ String "," t) = JS.parseInt s.
Proof.
  unfold JS.parseInt. rewrite trimStart_stop by done.
  destruct (JS.trimStart s) as [|d r]; [done|].
  assert (∀ acc, JS.parseDigits acc (r +:+ String "," t)
                 = JS.parseDigits acc r) as Hr
    by (intros acc; by apply parseDigits_stop).
  change (String d r +:+ String "," t) with (String d (r +:+ String "," t)).
  destruct d as [[] [] [] [] [] [] [] []]; simpl; rewrite ?Hr; done.
Qed.

Lemma parseInt_join first rest :
  JS.parseInt (join (first :: rest)) = JS.parseInt first.
Proof.
  destruct rest as [|second rest]; [done|].
  change (join (first :: second :: rest))
    with (first +:+ String "," (join (second :: rest))).
  apply parseInt_comma.
Qed.

(** X13.  When the status parameter comes several times in the query and not as
    a header, its first occurrence decides, for a request that reaches the
    status step (the JWT step returns); when the JWT step throws, the
    status is left as it was. *)
Theorem echoHandler_status_repeated config ctx w body first rest :
  overrideResponseBody config = None ∨ overrideResponseBody config = Some "" →
  readBody env ctx = Resolved body →
  get ctx "x-set-response-status-code" = "" →
  req_query ctx !! "x-set-response-status-code" = Some (QArray (first :: rest)) →
  let w' := final (echoHandler env config ctx w) in
  (∀ code, JS.parseInt first = Some code → 100 ≤ code < 600 →
     jwt_error config ctx = None →
     res_status (response w') = Some code)
  ∧ ((∀ code, JS.parseInt first = Some code → ¬ 100 ≤ code < 600) →
     res_status (response w') = res_status (response w))
  ∧ (jwt_error config ctx ≠ None →
     res_status (response w') = res_status (response w)).
Proof.
  intros Hov Hread Hget Hq. cbv zeta.
  rewrite (echoHandler_reflect env config ctx w body) by done.
  destruct (reflect_world env config ctx body w) as (_ & Hd & Ht).
  assert (headerOrQuery ctx "x-set-response-status-code"
          = Some (QArray (first :: rest))) as Hv.
  { unfold headerOrQuery. by rewrite Hget, Hq. }
  destruct (status_override_status ctx w) as [Hyes Hno]. cbv zeta in *.
  split; [|split].
  - intros code Hp Hr Hjwt. destruct (Hd Hjwt) as (echo & _ & -> & _).
    apply (Hyes _ code Hv); [|done].
    by rewrite <- Hp; apply parseInt_join.
  - intros Hnone. destruct (jwt_error config ctx) as [error|].
    { destruct Ht as (-> & _); done. }
    destruct (Hd eq_refl) as (echo & _ & -> & _).
    apply Hno. intros (v & code & Hv' & Hp & Hr).
    rewrite Hv in Hv'. injection Hv' as <-.
    cbn [qToString] in Hp. rewrite parseInt_join in Hp. by apply (Hnone code).
  - intros Hjwt. by destruct (Ht Hjwt) as (-> & _).
Qed.
End numbers.

(** * More runs of the model *)

Section more_runs.
#[local] Existing Instance Demo.platform.
#[local] Existing Instance Demo.koa.

(** X4, a run: a header with blanks around its first pair. *)
Lemma parseCookies_hygiene_run :
  parseCookies (Some " sid = 42 ;lang=en") !! "sid" = Some "42"
  ∧ JS.trim "sid" = "sid" ∧ JS.trim "42" = "42"
  ∧ JS.indexOf "=" "sid" = -1.
Proof.
  assert (parseCookies (Some " sid = 42 ;lang=en") !! "sid" = Some "42") as Hl
    by (vm_compute; reflexivity).
  destruct (parseCookies_hygiene " sid = 42 ;lang=en" "sid" "42" Hl)
    as (_ & Hk & Hv & He & _).
  split; [exact Hl|]. split; [exact Hk|]. split; [exact Hv|exact He].
Defined.

(** X5, a run: three distinct names, the last without value. *)
Lemma rebuildHeaders_exact_run :
  let raw := ["Host"; "localhost"; "Accept"; "*/*"; "X-Trace"] in
  raw_pairs raw
  = [("Host", HString "localhost"); ("Accept", HString "*/*");
     ("X-Trace", HUndefined)]
  ∧ size (rebuildHeaders raw) = 3%nat
  ∧ rebuildHeaders raw !! "X-Trace" = Some HUndefined.
Proof.
  cbv zeta.
  destruct (rebuildHeaders_exact
              ["Host"; "localhost"; "Accept"; "*/*"; "X-Trace"])
    as (_ & Hsize & Hiff).
  - apply (bool_decide_unpack _). vm_compute. exact I.
  - apply (bool_decide_unpack _). vm_compute. exact I.
  - split; [reflexivity|]. split; [exact Hsize|].
    apply Hiff. simpl.
    apply elem_of_cons; right. apply elem_of_cons; right.
    apply elem_of_cons; left. reflexivity.
Defined.

(** Six bytes in three chunks, and the same six bytes in one. *)
Let upload : Request :=
  Demo.request "POST" "/upload" [] [] ["abc"; "de"; "f"].
Let upload1 : Request := Demo.request "POST" "/upload" [] [] ["abcdef"].
Let limit6 : gmap string string := {[ "MAX_BODY_SIZE" := "6" ]}.
Let limit5 : gmap string string := {[ "MAX_BODY_SIZE" := "5" ]}.

(** X1, a run: six bytes against a limit of six and of five. *)
Lemma readBody_by_total_run :
  readBody limit6 upload = Resolved "abcdef"
  ∧ readBody limit5 upload = Rejected "Body exceeds max size of 5 bytes".
Proof.
  split.
  - rewrite (readBody_by_total limit6 upload 6);
      [vm_compute; reflexivity|vm_compute; reflexivity|lia|reflexivity].
  - rewrite (readBody_by_total limit5 upload 5);
      [vm_compute; reflexivity|vm_compute; reflexivity|lia|reflexivity].
Defined.

(** X2, a run: three chunks and one. *)
Lemma readBody_chunking_run :
  stream_data (body_stream upload) ≠ stream_data (body_stream upload1)
  ∧ readBody limit5 upload = readBody limit5 upload1.
Proof.
  split; [vm_compute; discriminate|].
  apply (readBody_chunking limit5 upload upload1); reflexivity.
Defined.

(** X3, a run: a limit that is no number, and a negative one. *)
Lemma readBody_unlimited_run :
  MAX_BODY_SIZE {[ "MAX_BODY_SIZE" := "none" ]} = None
  ∧ MAX_BODY_SIZE {[ "MAX_BODY_SIZE" := "-1" ]} = Some (-1)
  ∧ readBody {[ "MAX_BODY_SIZE" := "none" ]} upload = Resolved "abcdef"
  ∧ readBody {[ "MAX_BODY_SIZE" := "-1" ]} upload = Resolved "abcdef".
Proof.
  split; [vm_compute; reflexivity|]. split; [vm_compute; reflexivity|].
  split.
  - apply (readBody_unlimited {[ "MAX_BODY_SIZE" := "none" ]} upload);
      [|reflexivity].
    intros m Hm. vm_compute in Hm. discriminate.
  - apply (readBody_unlimited {[ "MAX_BODY_SIZE" := "-1" ]} upload);
      [|reflexivity].
    intros m Hm. vm_compute in Hm. injection Hm as <-. lia.
Defined.

(** The document of [Sample.call]. *)
Let order : EchoDocument :=
  match (build ∅ Sample.verbose Sample.call "{}" Demo.world).1 with
  | Returned echo => echo
  | Thrown _ => literal Sample.verbose Sample.call "{}"
  end.

(** The handler constructs that document. *)
Lemma order_built :
  documents (final (echoHandler ∅ Sample.verbose Sample.call Demo.world))
  = (documents Demo.world ++ [order])%list.
Proof. vm_compute. reflexivity. Qed.

(** X6, a run: the document of the sample call. *)
Lemma echoHandler_reflects_request_run :
  echo_path order = "/orders" ∧ echo_method order = "POST"
  ∧ echo_cookies order = {[ "sid" := "42"; "lang" := "en" ]}.
Proof.
  destruct (echoHandler_reflects_request ∅ Sample.verbose Sample.call
              Demo.world order order_built)
    as (Hp & Hm & _ & _ & _ & _ & _ & _ & _ & _ & Hc).
  split; [exact Hp|]. split; [exact Hm|].
  rewrite Hc. vm_compute. reflexivity.
Defined.

(** X7, a run: environment and JWT header configured, plain socket. *)
Lemma echoHandler_optional_fields_run :
  echo_env order = Some ∅ ∧ echo_clientCertificate order = None
  ∧ ∃ value, echo_jwt order = Some value.
Proof.
  destruct (echoHandler_optional_fields ∅ Sample.verbose Sample.call
              Demo.world order order_built) as (He & Hc & _ & Hj).
  split; [exact He|]. split; [exact Hc|].
  apply (Hj "authorization"); [reflexivity|discriminate].
Defined.

(** X8, a run: a bearer token. *)
Lemma echoHandler_jwt_run :
  get Sample.call "authorization" = "Bearer " +:+ Demo.token
  ∧ ∃ value, decode Demo.token = Returned value ∧ echo_jwt order = Some value.
Proof.
  split; [vm_compute; reflexivity|].
  destruct (echoHandler_jwt ∅ Sample.verbose Sample.call Demo.world order
              "authorization" order_built eq_refl) as (_ & _ & Hj).
  - discriminate.
  - apply (Hj "Bearer" Demo.token); vm_compute; reflexivity.
Defined.

(** The body of the sample call, and its token. *)
Lemma call_read : readBody ∅ Sample.call = Resolved "{}".
Proof. vm_compute. reflexivity. Qed.

Lemma call_decoded : jwt_error Sample.verbose Sample.call = None.
Proof. vm_compute. reflexivity. Qed.

(** X9, a run: body-only mode. *)
Lemma echoHandler_send_run :
  res_body (response
    (final (echoHandler ∅ Sample.verbose Sample.call Demo.world)))
  = Some (BodyString "{}").
Proof.
  destruct (echoHandler_send ∅ Sample.verbose Sample.call Demo.world "{}"
              (or_introl eq_refl) call_read) as (Hsend & _).
  destruct (Hsend call_decoded) as (Honly & _).
  apply Honly; [reflexivity|vm_compute; reflexivity].
Defined.

(** X10, a run: the override in the query. *)
Lemma echoHandler_content_type_run :
  res_type (response
    (final (echoHandler ∅ Sample.verbose Sample.call Demo.world)))
  = Some (QString "text/plain").
Proof.
  destruct (echoHandler_content_type ∅ Sample.verbose Sample.call Demo.world
              "{}" (or_introl eq_refl) call_read) as (Hset & _).
  apply Hset; [vm_compute; reflexivity|exact call_decoded].
Defined.

(** X11, a run: a quarter of a second. *)
Lemma echoHandler_delay_run :
  delays (final (echoHandler ∅ Sample.verbose Sample.call Demo.world))
  = [250].
Proof.
  destruct (echoHandler_delay ∅ Sample.verbose Sample.call Demo.world "{}"
              (or_introl eq_refl) call_read) as (Hwait & _).
  apply (Hwait 250); [vm_compute; reflexivity|lia|exact call_decoded].
Defined.

(** X13, a run: 201 before 500. *)
Lemma echoHandler_status_repeated_run :
  req_query Sample.call !! "x-set-response-status-code"
  = Some (QArray ["201"; "500"])
  ∧ res_status (response
      (final (echoHandler ∅ Sample.verbose Sample.call Demo.world)))
    = Some 201.
Proof.
  split; [vm_compute; reflexivity|].
  destruct (echoHandler_status_repeated ∅ Sample.verbose Sample.call
              Demo.world "{}" "201" ["500"] (or_introl eq_refl) call_read)
    as (Hyes & _).
  - vm_compute. reflexivity.
  - vm_compute. reflexivity.
  - apply (Hyes 201); [reflexivity|lia|exact call_decoded].
Defined.

(** X14, a run: the sample call with logs off. *)
Lemma serve_logs_disabled_run :
  log (final
    (serve {[ "DISABLE_REQUEST_LOGS" := "true" ]} ∅ Sample.call Demo.world))
  = [].
Proof.
  apply (serve_logs_disabled {[ "DISABLE_REQUEST_LOGS" := "true" ]} ∅
           Sample.call Demo.world).
  vm_compute. reflexivity.
Defined.



Let static_env : gmap string string :=
  {[ "OVERRIDE_RESPONSE_BODY_FILE_PATH" := "/etc/hello/body" ]}.
Let static_fs : gmap string string := {[ "/etc/hello/body" := "ok" ]}.

(** X17, a run: the sample call behind a static body. *)
Lemma serve_override_file_run :
  let w' := final (serve static_env static_fs Sample.call Demo.world) in
  res_body (response w') = Some (BodyString "ok")
  ∧ res_status (response w') = None
  ∧ documents w' = [] ∧ delays w' = [].
Proof.
  cbv zeta.
  destruct (serve_override_file static_env static_fs Sample.call Demo.world
              "/etc/hello/body" "ok")
    as (Hb & Hs & _ & Hd & Hdel).
  - vm_compute. reflexivity.
  - discriminate.
  - vm_compute. reflexivity.
  - discriminate.
  - left. vm_compute. reflexivity.
  - left. vm_compute. reflexivity.
  - split; [exact Hb|]. split; [exact Hs|]. split; [exact Hd|exact Hdel].
Defined.

Let metered : gmap string string :=
  {[ "PROMETHEUS_ENABLED" := "true"; "JWT_HEADER" := "authorization" ]}.

End more_runs.

